(** * UnRustleLogs: the OAuth state stores, the session middleware and the
      request handlers of [main.go], as a shallow embedding.

    Go values are modelled as the program has them: [map[string]T] as a
    [gmap string T], [map[string]struct{}] as a [gset string], a pointer
    [*T] as an [option T] whose [None] is [nil], and a run-time panic as
    the [Panic] result.  A function whose body is bracketed by
    [mutex.Lock()] / [defer mutex.Unlock()] (or the read-lock pair) is one
    atomic function on the store. *)

From Stdlib Require Import ZArith String List Lia.
From stdpp Require Import base option gmap sets list strings.

Local Open Scope string_scope.
Local Open Scope list_scope.
Local Open Scope Z_scope.

(** ** Go run-time values *)

Module Go.

(** A computation either returns or panics (the deferred unlocks still
    run, so a panic leaves the store as it was when it was raised). *)
Inductive result (A : Type) : Type :=
| Ok (a : A)
| Panic (msg : string).
Arguments Ok {A} a.
Arguments Panic {A} msg.

Definition bind {A B} (r : result A) (k : A -> result B) : result B :=
  match r with
  | Ok a => k a
  | Panic msg => Panic msg
  end.

(** [*T]: [None] is the nil pointer. *)
Definition ptr (A : Type) : Type := option A.
Definition nil {A} : ptr A := None.

(** Selecting a field through a pointer ([p.f]). *)
Definition nil_dereference : string :=
  "invalid memory address or nil pointer dereference".

Definition field {A B} (p : ptr A) (f : A -> B) : result B :=
  match p with
  | Some a => Ok (f a)
  | None => Panic nil_dereference
  end.

(** The two-result index expression [v, ok := m[k]] on a map whose
    values are pointers: a missing key gives the zero value, nil. *)
Definition index {A} (m : gmap string (ptr A)) (k : string) : ptr A * bool :=
  match m !! k with
  | Some p => (p, true)
  | None => (nil, false)
  end.

(** The same on [map[string]struct{}], kept as the set of its keys. *)
Definition index_set (m : gset string) (k : string) : unit * bool :=
  (tt, bool_decide (k ∈ m)).

(** [time.Duration] counts nanoseconds; [time.Time] is kept as the
    nanoseconds of a logical clock. *)
Definition Second : Z := 1000000000.
Definition Minute : Z := 60 * Second.

End Go.

#[global] Instance result_ret : MRet Go.result := fun _ a => Go.Ok a.
#[global] Instance result_bind : MBind Go.result := fun _ _ k r => Go.bind r k.

(** ** Data model *)

(** [type state struct] *)
Record state := mkState {
  service : string;
  verifier : string;
  time : Z;
}.

Definition TITLE : string := "UnRustleLogs".
Definition TWITCHSERVICE : string := "twtch".
Definition DESTINYGGSERVICE : string := "destinygg".

(** The fields of [Config] that [main.go] reads; the type is declared in
    another file of the repository. *)
Record Config := mkConfig {
  Twitch_Cookie : string;
  Destinygg_Cookie : string;
  Server_JWTSecret : string;
  Server_Address : string;
}.

(** Modelled from the spec: the preference table behind [ur.db] (its
    schema and the three methods [AddUser], [DeleteUser] and
    [UserInDatabase] are defined outside [main.go]).  The spec makes it a
    single entity with a name+service key, where the existence of a row
    means that the user's logs are excluded: a set of (name, service)
    keys. *)
Definition DB : Type := gset (string * string).

(** [type UnRustleLogs struct]; the two mutexes are the atomicity of the
    functions that take them. *)
Record UnRustleLogs := mkUnRustleLogs {
  config : Config;
  db : DB;
  dggStates : gmap string (Go.ptr state);
  twitchStates : gset string;
}.

Definition set_db (f : DB -> DB) (ur : UnRustleLogs) : UnRustleLogs :=
  {| config := config ur; db := f (db ur);
     dggStates := dggStates ur; twitchStates := twitchStates ur |}.

Definition set_dggStates
    (f : gmap string (Go.ptr state) -> gmap string (Go.ptr state))
    (ur : UnRustleLogs) : UnRustleLogs :=
  {| config := config ur; db := db ur;
     dggStates := f (dggStates ur); twitchStates := twitchStates ur |}.

Definition set_twitchStates (f : gset string -> gset string)
    (ur : UnRustleLogs) : UnRustleLogs :=
  {| config := config ur; db := db ur;
     dggStates := dggStates ur; twitchStates := f (twitchStates ur) |}.

(** [NewUnRustleLogs], with the configuration that [LoadConfig] fills in
    and the table that [NewDatabase] opens. *)
Definition NewUnRustleLogs (cfg : Config) (d : DB) : UnRustleLogs :=
  {| config := cfg; db := d; dggStates := ∅; twitchStates := ∅ |}.

(** ** The state stores *)

(** A goroutine started by [go func() { time.Sleep(d); ... }()]: it sleeps
    until the clock has reached [wake] and then runs [body]. *)
Inductive task :=
| TaskDeleteDggState (s : string)
| TaskDeleteTwitchState (s : string).

Record goroutine := mkGoroutine {
  wake : Z;
  body : task;
}.

(** The process: the application value, the clock that [time.Now] reads and
    the goroutines that are asleep. *)
Record Runtime := mkRuntime {
  app : UnRustleLogs;
  clock : Z;
  sleeping : list goroutine;
}.

(** [hasDggState] *)
Definition hasDggState (ur : UnRustleLogs) (state : string)
    : Go.result (string * bool) :=
  let '(s, ok) := Go.index (dggStates ur) state in
  v ← Go.field s verifier;
  mret (v, ok).

(** [deleteDggState] *)
Definition deleteDggState (state : string) (ur : UnRustleLogs) : UnRustleLogs :=
  let '(_, ok) := Go.index (dggStates ur) state in
  if ok then set_dggStates (fun m => delete state m) ur else ur.

(** [addDggState] *)
Definition addDggState (s verifier : string) (rt : Runtime) : Runtime :=
  {| app := set_dggStates
              (fun m => <[s := Some {| verifier := verifier;
                                       service := TWITCHSERVICE;
                                       time := clock rt |}]> m) (app rt);
     clock := clock rt;
     sleeping := sleeping rt ++
       [{| wake := clock rt + Go.Minute * 5; body := TaskDeleteDggState s |}] |}.

(** [hasTwitchState] *)
Definition hasTwitchState (ur : UnRustleLogs) (state : string) : bool :=
  let '(_, ok) := Go.index_set (twitchStates ur) state in ok.

(** [deleteTwitchState] *)
Definition deleteTwitchState (state : string) (ur : UnRustleLogs) : UnRustleLogs :=
  let '(_, ok) := Go.index_set (twitchStates ur) state in
  if ok then set_twitchStates (fun m => m ∖ {[state]}) ur else ur.

(** [addTwitchState] *)
Definition addTwitchState (s : string) (rt : Runtime) : Runtime :=
  {| app := set_twitchStates (fun m => {[s]} ∪ m) (app rt);
     clock := clock rt;
     sleeping := sleeping rt ++
       [{| wake := clock rt + Go.Minute * 5; body := TaskDeleteTwitchState s |}] |}.

(** What a woken goroutine does: the call after its [time.Sleep]. *)
Definition run_task (t : task) (ur : UnRustleLogs) : UnRustleLogs :=
  match t with
  | TaskDeleteDggState s => deleteDggState s ur
  | TaskDeleteTwitchState s => deleteTwitchState s ur
  end.

(** Time passing: [d] nanoseconds go by. *)
Definition elapse (d : Z) (rt : Runtime) : Runtime :=
  {| app := app rt; clock := clock rt + d; sleeping := sleeping rt |}.

(** The scheduler resumes the [i]-th sleeping goroutine; [time.Sleep] has
    returned only if the clock has reached its wake-up time. *)
Definition resume (i : nat) (rt : Runtime) : option Runtime :=
  match sleeping rt !! i with
  | Some g =>
      if bool_decide (wake g <= clock rt)
      then Some {| app := run_task (body g) (app rt);
                   clock := clock rt;
                   sleeping := delete i (sleeping rt) |}
      else None
  | None => None
  end.

(** ** The callback's use of a state store *)

Inductive provider := ProviderTwitch | ProviderDgg.

(** The lookup of either store, as the callback sees it. *)
Definition lookup (p : provider) (nonce : string) (ur : UnRustleLogs)
    : Go.result bool :=
  match p with
  | ProviderTwitch => mret (hasTwitchState ur nonce)
  | ProviderDgg => r ← hasDggState ur nonce; mret (snd r)
  end.

Definition remove (p : provider) (nonce : string) (ur : UnRustleLogs)
    : UnRustleLogs :=
  match p with
  | ProviderTwitch => deleteTwitchState nonce ur
  | ProviderDgg => deleteDggState nonce ur
  end.

(** Modelled from the spec: the callback handlers ([TwitchCallbackHandle],
    [DestinyggCallbackHandle]) are defined outside [main.go].  The spec
    has them validate the returned nonce against the State Store before
    they trust the callback, an absent nonce being a terminal failure, and
    has the entry deleted explicitly on successful callback consumption: a
    caller looks the nonce up, stops when it is not found, and deletes it
    when it is. *)
Inductive caller :=
| AtLookup
| AtDelete
| Done (found : bool)
| Crashed.

(** Modelled from the spec: one step of a caller.  Each of its two calls
    takes and releases the store's lock by itself, so each is one step; a
    panic ends the request. *)
Definition caller_step (p : provider) (nonce : string) (pc : caller)
    (ur : UnRustleLogs) : caller * UnRustleLogs :=
  match pc with
  | AtLookup =>
      match lookup p nonce ur with
      | Go.Ok true => (AtDelete, ur)
      | Go.Ok false => (Done false, ur)
      | Go.Panic _ => (Crashed, ur)
      end
  | AtDelete => (Done true, remove p nonce ur)
  | Done _ | Crashed => (pc, ur)
  end.

(** Concurrent requests on one store: the scheduler picks which caller
    takes its next step. *)
Record system := mkSystem {
  store : UnRustleLogs;
  callers : list caller;
}.

Definition sched_step (p : provider) (nonce : string) (σ : system) (i : nat)
    : system :=
  match callers σ !! i with
  | Some pc =>
      let '(pc', ur') := caller_step p nonce pc (store σ) in
      {| store := ur'; callers := <[i := pc']> (callers σ) |}
  | None => σ
  end.

Definition run (p : provider) (nonce : string) (sched : list nat) (σ : system)
    : system :=
  foldl (sched_step p nonce) σ sched.

(** Every caller runs both of its steps before the next one starts. *)
Definition one_after_another (n : nat) : list nat :=
  flat_map (fun i => [i; i]) (seq 0 n).

Definition finished (pc : caller) : bool :=
  match pc with
  | Done _ | Crashed => true
  | AtLookup | AtDelete => false
  end.

(** The nonce has been issued and not yet removed. *)
Definition issued (p : provider) (nonce : string) (ur : UnRustleLogs) : Prop :=
  match p with
  | ProviderTwitch => nonce ∈ twitchStates ur
  | ProviderDgg => ∃ st, dggStates ur !! nonce = Some (Some st)
  end.

Definition absent (p : provider) (nonce : string) (ur : UnRustleLogs) : Prop :=
  match p with
  | ProviderTwitch => nonce ∉ twitchStates ur
  | ProviderDgg => dggStates ur !! nonce = None
  end.

(** ** The libraries the handlers call *)

Module http.
Definition StatusOK : Z := 200.
Definition StatusFound : Z := 302.
Definition StatusTemporaryRedirect : Z := 307.
Definition StatusUnauthorized : Z := 401.
End http.

(** [jwt.StandardClaims] and [type jwtClaims struct]. *)
Record StandardClaims := mkStandardClaims {
  Audience : string;
  ExpiresAt : Z;
  Id : string;
  IssuedAt : Z;
  Issuer : string;
  NotBefore : Z;
  Subject : string;
}.

Record jwtClaims := mkJwtClaims {
  ID : string;
  Name : string;
  Email : string;
  DisplayName : string;
  Service : string;
  Standard : StandardClaims;
}.

(** An interface value ([interface{}], [jwt.Claims]): the nil interface, a
    [*jwtClaims], or a value of another type.  The one [*jwtClaims] the
    program ever wraps is the address of the fresh [jwtClaims{}] it hands
    to the parser, so the pointer inside is never nil and [AnyClaims]
    carries the value it points to. *)
Inductive any :=
| AnyNil
| AnyClaims (cl : jwtClaims)
| AnyOther.

(** Storing a [*jwtClaims] in an interface value (the nil case does not
    arise, see [any]). *)
Definition to_any (p : Go.ptr jwtClaims) : any :=
  match p with
  | Some cl => AnyClaims cl
  | None => AnyNil
  end.

(** The type assertion of an interface value to [*jwtClaims], in its
    two-result form and in its panicking form. *)
Definition assert_claims_ok (v : any) : Go.ptr jwtClaims * bool :=
  match v with
  | AnyClaims cl => (Some cl, true)
  | AnyNil | AnyOther => (Go.nil, false)
  end.

Definition assert_claims (v : any) : Go.result (Go.ptr jwtClaims) :=
  match v with
  | AnyClaims cl => Go.Ok (Some cl)
  | AnyNil | AnyOther =>
      Go.Panic "interface conversion: interface {} is not *main.jwtClaims"
  end.

Module jwt.
(** The fields of [jwt.Token] the program reads. *)
Record Token := mkToken {
  Claims : any;
  Valid : bool;
}.

(** [jwt.ParseWithClaims(tokenString, &jwtClaims{}, keyFunc)], seen as a
    function of the token string and of the key that [keyFunc] returns:
    the token and the error ([None] is the nil error). *)
Definition Parser : Type := string -> string -> Token * option string.
End jwt.

(** [type Payload struct] *)
Module PayloadTwitch.
Record t := mk {
  Name : string;
  Email : string;
  LoggedIn : bool;
  IsDeleting : bool;
}.
Definition zero : t := mk "" "" false false.
Definition set_Name (v : string) (x : t) : t :=
  mk v (Email x) (LoggedIn x) (IsDeleting x).
Definition set_Email (v : string) (x : t) : t :=
  mk (Name x) v (LoggedIn x) (IsDeleting x).
Definition set_LoggedIn (v : bool) (x : t) : t :=
  mk (Name x) (Email x) v (IsDeleting x).
Definition set_IsDeleting (v : bool) (x : t) : t :=
  mk (Name x) (Email x) (LoggedIn x) v.
End PayloadTwitch.

Module PayloadDestinygg.
Record t := mk {
  Name : string;
  LoggedIn : bool;
  IsDeleting : bool;
}.
Definition zero : t := mk "" false false.
Definition set_Name (v : string) (x : t) : t :=
  mk v (LoggedIn x) (IsDeleting x).
Definition set_LoggedIn (v : bool) (x : t) : t :=
  mk (Name x) v (IsDeleting x).
Definition set_IsDeleting (v : bool) (x : t) : t :=
  mk (Name x) (LoggedIn x) v.
End PayloadDestinygg.

Record Payload := mkPayload {
  Title : string;
  Twitch : PayloadTwitch.t;
  Destinygg : PayloadDestinygg.t;
  DeleteStatus : string;
}.

Definition upd_Twitch (f : PayloadTwitch.t -> PayloadTwitch.t) (p : Payload)
    : Payload :=
  mkPayload (Title p) (f (Twitch p)) (Destinygg p) (DeleteStatus p).

Definition upd_Destinygg (f : PayloadDestinygg.t -> PayloadDestinygg.t)
    (p : Payload) : Payload :=
  mkPayload (Title p) (Twitch p) (f (Destinygg p)) (DeleteStatus p).

Definition set_DeleteStatus (v : string) (p : Payload) : Payload :=
  mkPayload (Title p) (Twitch p) (Destinygg p) v.

(** What a handler does to the outside, in order: log lines and what it
    writes to the response. *)
Inductive effect :=
| LogError (err : string)
| LogInfo (msg : string)
| WriteJSON (code : Z) (obj : list (string * string))
| WriteRedirect (code : Z) (location : string)
| WriteHTML (code : Z) (name : string) (obj : Payload)
| ClearCookie (name : string).

Module gin.
(** [gin.Context]: the request's cookies and query parameters, the keys
    set on the context, and the effects so far. *)
Record Context := mkContext {
  cookies : gmap string string;
  query : gmap string string;
  keys : gmap string any;
  effects : list effect;
}.

Definition emit (e : effect) (c : Context) : Context :=
  mkContext (cookies c) (query c) (keys c) (effects c ++ [e]).

(** [c.Cookie(name)]: the value, or [http.ErrNoCookie]. *)
Definition Cookie (name : string) (c : Context) : string * option string :=
  match cookies c !! name with
  | Some v => (v, None)
  | None => ("", Some "http: named cookie not present")
  end.

(** [c.Query(key)]: the value, or the empty string. *)
Definition Query (key : string) (c : Context) : string :=
  default "" (query c !! key).

(** [c.Get(key)] and [c.Set(key, value)]. *)
Definition Get (key : string) (c : Context) : any * bool :=
  match keys c !! key with
  | Some v => (v, true)
  | None => (AnyNil, false)
  end.

Definition SetKey (key : string) (v : any) (c : Context) : Context :=
  mkContext (cookies c) (query c) (<[key := v]> (keys c)) (effects c).

Definition JSON (code : Z) (obj : list (string * string)) : Context -> Context :=
  emit (WriteJSON code obj).
Definition Redirect (code : Z) (location : string) : Context -> Context :=
  emit (WriteRedirect code location).
Definition HTML (code : Z) (name : string) (obj : Payload) : Context -> Context :=
  emit (WriteHTML code name obj).

Definition HandlerFunc : Type :=
  Context -> UnRustleLogs -> Go.result (Context * UnRustleLogs).
End gin.

Module logrus.
Definition Error (err : string) : gin.Context -> gin.Context :=
  gin.emit (LogError err).
Definition Info (msg : string) : gin.Context -> gin.Context :=
  gin.emit (LogInfo msg).
End logrus.

(** ** The collaborators of [main.go] *)

(** Modelled from the spec: [AddUser] (defined outside [main.go]) is the
    spec's [AddUser(key, service)]: it records the preference, so that the
    row exists afterwards. *)
Definition AddUser (name service : string) (ur : UnRustleLogs) : UnRustleLogs :=
  set_db (fun d => {[(name, service)]} ∪ d) ur.

(** Modelled from the spec: [DeleteUser] (defined outside [main.go]) is
    the spec's [DeleteUser(key, service)]: it removes the preference, so
    that the row does not exist afterwards. *)
Definition DeleteUser (name service : string) (ur : UnRustleLogs) : UnRustleLogs :=
  set_db (fun d => d ∖ {[(name, service)]}) ur.

(** Modelled from the spec: [UserInDatabase] (defined outside [main.go])
    is the spec's [Exists(key, service) -> bool]. *)
Definition UserInDatabase (name service : string) (ur : UnRustleLogs) : bool :=
  bool_decide ((name, service) ∈ db ur).

(** Modelled from the spec: [deleteCookie] (defined outside [main.go])
    is how a handler instructs the client to discard a cookie; it is
    given a cookie name, and what reaches the client is the removal of the
    cookie of that name. *)
Definition deleteCookie (cookie : string) (c : gin.Context) : gin.Context :=
  gin.emit (ClearCookie cookie) c.

(** ** The handlers of [main.go] *)

Section Handlers.

(** The JWT library, with the claims type and the key function the
    program passes to it. *)
Variable ParseWithClaims : jwt.Parser.

(** [getUser]: the claims and the flag, and the context with what the
    call logged and wrote. *)
Definition getUser (ur : UnRustleLogs) (c : gin.Context) (cookie : string)
    : (Go.ptr jwtClaims * bool) * gin.Context :=
  let '(cookie, err) := gin.Cookie cookie c in
  match err with
  | Some _ => ((Go.nil, false), c)
  | None =>
      let '(token, err) :=
        ParseWithClaims cookie (Server_JWTSecret (config ur)) in
      match err with
      | Some err =>
          let c := logrus.Error err c in
          let c := deleteCookie cookie c in
          ((Go.nil, false), c)
      | None =>
          let '(claims, ok) := assert_claims_ok (jwt.Claims token) in
          if ok && jwt.Valid token then ((claims, true), c)
          else ((Go.nil, false), c)
      end
  end.

(** [indexHandler] *)
Definition indexHandler : gin.HandlerFunc := fun c ur =>
  let payload :=
    mkPayload TITLE PayloadTwitch.zero PayloadDestinygg.zero "" in
  let '((twitch, ok), c) := getUser ur c (Twitch_Cookie (config ur)) in
  payload ←
    (if ok then
       v ← Go.field twitch DisplayName;
       let payload := upd_Twitch (PayloadTwitch.set_Name v) payload in
       v ← Go.field twitch Email;
       let payload := upd_Twitch (PayloadTwitch.set_Email v) payload in
       let payload := upd_Twitch (PayloadTwitch.set_LoggedIn true) payload in
       v ← Go.field twitch Name;
       mret (upd_Twitch
               (PayloadTwitch.set_IsDeleting
                  (UserInDatabase v TWITCHSERVICE ur)) payload)
     else mret payload);
  let '((dgg, ok), c) := getUser ur c (Destinygg_Cookie (config ur)) in
  payload ←
    (if ok then
       v ← Go.field dgg DisplayName;
       let payload := upd_Destinygg (PayloadDestinygg.set_Name v) payload in
       let payload :=
         upd_Destinygg (PayloadDestinygg.set_LoggedIn true) payload in
       v ← Go.field dgg Name;
       mret (upd_Destinygg
               (PayloadDestinygg.set_IsDeleting
                  (UserInDatabase v DESTINYGGSERVICE ur)) payload)
     else mret payload);
  let s := gin.Query "delete" c in
  let payload :=
    if bool_decide (s ≠ "") then set_DeleteStatus s payload else payload in
  mret (gin.HTML http.StatusOK "index.tmpl" payload c, ur).

(** [deleteHandler] *)
Definition deleteHandler (service : string) : gin.HandlerFunc := fun c ur =>
  let '(user, ok) := gin.Get "user" c in
  if negb ok then
    mret (gin.JSON http.StatusUnauthorized [("message", "Unauthorized")] c, ur)
  else
    p ← assert_claims user;
    v ← Go.field p DisplayName;
    let c := logrus.Info (v +:+ " requested log deletion") c in
    p ← assert_claims user;
    v ← Go.field p Name;
    let ur := AddUser v service ur in
    mret (gin.Redirect http.StatusFound "/?delete=true" c, ur).

(** [undeleteHandler] *)
Definition undeleteHandler (service : string) : gin.HandlerFunc := fun c ur =>
  let '(user, ok) := gin.Get "user" c in
  if negb ok then
    mret (gin.JSON http.StatusUnauthorized [("message", "Unauthorized")] c, ur)
  else
    p ← assert_claims user;
    v ← Go.field p DisplayName;
    let c := logrus.Info (v +:+ " requested to stop log deletion") c in
    p ← assert_claims user;
    v ← Go.field p Name;
    let ur := DeleteUser v service ur in
    mret (gin.Redirect http.StatusFound "/?delete=false" c, ur).

(** [jwtMiddleware]; as in the source, the name [cookie] stands for the
    cookie's value from the first line of the closure on. *)
Definition jwtMiddleware (fn : gin.HandlerFunc) (cookie : string)
    : gin.HandlerFunc := fun c ur =>
  let '(cookie, err) := gin.Cookie cookie c in
  match err with
  | Some err =>
      let c := logrus.Error err c in
      mret (gin.JSON http.StatusUnauthorized
              [("message", "Unauthorized")] c, ur)
  | None =>
      let '(token, err) :=
        ParseWithClaims cookie (Server_JWTSecret (config ur)) in
      match err with
      | Some err =>
          let c := logrus.Error err c in
          let c := deleteCookie cookie c in
          mret (gin.JSON http.StatusUnauthorized [("message", "error")] c, ur)
      | None =>
          let '(claims, ok) := assert_claims_ok (jwt.Claims token) in
          if ok && jwt.Valid token then
            let c := gin.SetKey "user" (to_any claims) c in
            fn c ur
          else if bool_decide (cookie = Twitch_Cookie (config ur)) then
            mret (gin.Redirect http.StatusTemporaryRedirect
                    "/twitch/logout" c, ur)
          else if bool_decide (cookie = Destinygg_Cookie (config ur)) then
            mret (gin.Redirect http.StatusTemporaryRedirect
                    "/dgg/logout" c, ur)
          else
            mret (gin.Redirect http.StatusTemporaryRedirect "/" c, ur)
      end
  end.

(** The route table of [main] for the four guarded endpoints. *)
Inductive route :=
| TwitchDelete | TwitchUndelete | DggDelete | DggUndelete.

Definition route_handler (r : route) : gin.HandlerFunc := fun c ur =>
  match r with
  | TwitchDelete =>
      jwtMiddleware (deleteHandler TWITCHSERVICE) (Twitch_Cookie (config ur)) c ur
  | TwitchUndelete =>
      jwtMiddleware (undeleteHandler TWITCHSERVICE) (Twitch_Cookie (config ur)) c ur
  | DggDelete =>
      jwtMiddleware (deleteHandler DESTINYGGSERVICE)
        (Destinygg_Cookie (config ur)) c ur
  | DggUndelete =>
      jwtMiddleware (undeleteHandler DESTINYGGSERVICE)
        (Destinygg_Cookie (config ur)) c ur
  end.

Definition route_cookie (r : route) (cfg : Config) : string :=
  match r with
  | TwitchDelete | TwitchUndelete => Twitch_Cookie cfg
  | DggDelete | DggUndelete => Destinygg_Cookie cfg
  end.

End Handlers.

(** ** Sample data *)

Module Sample.

Definition cfg : Config :=
  {| Twitch_Cookie := "jwt_twitch"; Destinygg_Cookie := "jwt_dgg";
     Server_JWTSecret := "s3cret"; Server_Address := ":8080" |}.

Definition bob : jwtClaims :=
  {| ID := "u1"; Name := "bob"; Email := "bob@example.com";
     DisplayName := "Bob"; Service := TWITCHSERVICE;
     Standard := mkStandardClaims "" 1700003600 "" 1700000000 "" 0 "" |}.

(** A stand-in for the JWT library with three kinds of token strings:
    the string "bob.signed" verifies under the key "s3cret" and carries
    [bob]; "bob.expired" is well formed but past its expiry; every other
    string is malformed. *)
Definition parse : jwt.Parser := fun tokenString key =>
  if bool_decide (tokenString = "bob.signed" ∧ key = "s3cret") then
    (jwt.mkToken (AnyClaims bob) true, None)
  else if bool_decide (tokenString = "bob.expired") then
    (jwt.mkToken (AnyClaims bob) false, Some "token is expired by 1h0m0s")
  else
    (jwt.mkToken AnyNil false,
     Some "token contains an invalid number of segments").

Definition request (cookies query : list (string * string)) : gin.Context :=
  gin.mkContext (list_to_map cookies) (list_to_map query) ∅ [].

End Sample.

(** ** The vocabulary of the statements *)

(** The goroutine that an issuance starts, by provider. *)
Definition expiry_task (p : provider) (nonce : string) : task :=
  match p with
  | ProviderTwitch => TaskDeleteTwitchState nonce
  | ProviderDgg => TaskDeleteDggState nonce
  end.

(** Two dgg entries that differ at most in their [service] field, and two
    applications that differ at most in the [service] fields of their dgg
    entries. *)
Definition same_but_service (a b : Go.ptr state) : Prop :=
  match a, b with
  | Some x, Some y => verifier x = verifier y ∧ time x = time y
  | None, None => True
  | _, _ => False
  end.

Definition agree_but_service (u1 u2 : UnRustleLogs) : Prop :=
  config u1 = config u2 ∧ db u1 = db u2 ∧ twitchStates u1 = twitchStates u2
  ∧ ∀ k, option_Forall2 same_but_service (dggStates u1 !! k) (dggStates u2 !! k).

(** Two results that agree up to the [service] fields of the store. *)
Definition outcome_agrees
    (r1 r2 : Go.result (gin.Context * UnRustleLogs)) : Prop :=
  match r1, r2 with
  | Go.Ok (c1, u1), Go.Ok (c2, u2) => c1 = c2 ∧ agree_but_service u1 u2
  | Go.Panic m1, Go.Panic m2 => m1 = m2
  | _, _ => False
  end.

(** Rewriting the [service] field of every dgg entry. *)
Definition relabel (f : string -> string) (ur : UnRustleLogs) : UnRustleLogs :=
  set_dggStates
    (fmap (fmap (fun st => mkState (f (service st)) (verifier st) (time st))))
    ur.

(** The session a request carries under a cookie name, in the words of the
    spec: the cookie is there, the library accepts it without an error,
    and the token is valid and carries claims. *)
Definition spec_session (parse : jwt.Parser) (ur : UnRustleLogs)
    (c : gin.Context) (name : string) : option jwtClaims :=
  match gin.cookies c !! name with
  | None => None
  | Some v =>
      match parse v (Server_JWTSecret (config ur)) with
      | (_, Some _) => None
      | (tok, None) =>
          match jwt.Claims tok with
          | AnyClaims cl => if jwt.Valid tok then Some cl else None
          | _ => None
          end
      end
  end.

(** What [getUser] logs and writes on a cookie the library rejects. *)
Definition spec_getUser_effects (parse : jwt.Parser) (ur : UnRustleLogs)
    (c : gin.Context) (name : string) : list effect :=
  match gin.cookies c !! name with
  | None => []
  | Some v =>
      match parse v (Server_JWTSecret (config ur)) with
      | (_, Some e) => [LogError e; ClearCookie v]
      | (_, None) => []
      end
  end.

(** The status page of the spec: one section per provider, filled from
    that provider's session alone. *)
Definition spec_twitch_section (ur : UnRustleLogs) (s : option jwtClaims)
    : PayloadTwitch.t :=
  match s with
  | Some cl =>
      PayloadTwitch.mk (DisplayName cl) (Email cl) true
        (UserInDatabase (Name cl) TWITCHSERVICE ur)
  | None => PayloadTwitch.mk "" "" false false
  end.

Definition spec_dgg_section (ur : UnRustleLogs) (s : option jwtClaims)
    : PayloadDestinygg.t :=
  match s with
  | Some cl =>
      PayloadDestinygg.mk (DisplayName cl) true
        (UserInDatabase (Name cl) DESTINYGGSERVICE ur)
  | None => PayloadDestinygg.mk "" false false
  end.

Definition is_response (e : effect) : bool :=
  match e with
  | WriteJSON _ _ | WriteRedirect _ _ | WriteHTML _ _ _ => true
  | LogError _ | LogInfo _ | ClearCookie _ => false
  end.

Definition add_effects (es : list effect) (c : gin.Context) : gin.Context :=
  gin.mkContext (gin.cookies c) (gin.query c) (gin.keys c) (gin.effects c ++ es).

(** Issuing a nonce into a provider's store. *)
Definition issue (p : provider) (nonce verifier : string) (rt : Runtime)
    : Runtime :=
  match p with
  | ProviderTwitch => addTwitchState nonce rt
  | ProviderDgg => addDggState nonce verifier rt
  end.

Definition five_minutes : Z := 300000000000.

(** A caller has seen [found = true]. *)
Definition observed_found (pc : caller) : bool :=
  match pc with
  | AtDelete | Done true => true
  | AtLookup | Done false | Crashed => false
  end.

(** What the claim of an atomic consume asks of the callers' outcomes. *)
Definition exactly_one_found (cs : list caller) : Prop :=
  ∃ i : nat, cs !! i = Some (Done true)
    ∧ ∀ j : nat, j ≠ i -> (j < length cs)%nat -> cs !! j = Some (Done false).

(** The outcome of a caller that looks up an absent nonce. *)
Definition late_outcome (p : provider) : caller :=
  match p with
  | ProviderTwitch => Done false
  | ProviderDgg => Crashed
  end.

(** Either the nonce is still there and nobody has finished, or it is gone
    and somebody has seen it. *)
Definition race_inv (p : provider) (nonce : string) (σ : system) : Prop :=
  (issued p nonce (store σ)
   ∧ Forall (fun pc => finished pc = false) (callers σ))
  ∨ (absent p nonce (store σ)
     ∧ ∃ (i : nat) (pc : caller),
         callers σ !! i = Some pc ∧ observed_found pc = true).

(** The state in which a nonce has just been issued into the twitch store
    of a fresh application. *)
Definition twitch_issued_once : UnRustleLogs :=
  app (addTwitchState "n1" (mkRuntime (NewUnRustleLogs Sample.cfg ∅) 0 [])).

(** *** The process as a sequence of events *)

(** What can happen to the process, one event at a time: a login issues a
    nonce, a callback removes one, time passes, the scheduler resumes a
    sleeping goroutine (which stays asleep if it is not due). *)
Inductive event :=
| EvIssue (p : provider) (nonce verifier : string)
| EvRemove (p : provider) (nonce : string)
| EvElapse (d : N)
| EvResume (i : nat).

Definition step (rt : Runtime) (e : event) : Runtime :=
  match e with
  | EvIssue p nonce verifier => issue p nonce verifier rt
  | EvRemove p nonce =>
      {| app := remove p nonce (app rt); clock := clock rt;
         sleeping := sleeping rt |}
  | EvElapse d => elapse (Z.of_N d) rt
  | EvResume i => default rt (resume i rt)
  end.

Definition execute (es : list event) (rt : Runtime) : Runtime :=
  foldl step rt es.

(** The process right after [NewUnRustleLogs], at some time of day. *)
Definition boot (cfg : Config) (d : DB) (now : Z) : Runtime :=
  {| app := NewUnRustleLogs cfg d; clock := now; sleeping := [] |}.

(** A goroutine that will run task [t] is asleep and due by [latest]. *)
Definition pending (rt : Runtime) (t : task) (latest : Z) : Prop :=
  ∃ (i : nat) (g : goroutine),
    sleeping rt !! i = Some g ∧ body g = t ∧ wake g <= latest.

(** Every entry of either store has its expiry goroutine asleep, due
    within five minutes (of now for a twitch entry, of the entry's time
    stamp for a dgg entry); and no dgg entry is a nil pointer or carries a
    time stamp of the future. *)
Definition every_entry_expires (rt : Runtime) : Prop :=
  (∀ s, s ∈ twitchStates (app rt) ->
        pending rt (TaskDeleteTwitchState s) (clock rt + five_minutes))
  ∧ (∀ s p, dggStates (app rt) !! s = Some p ->
        ∃ st, p = Some st ∧ time st <= clock rt
              ∧ pending rt (TaskDeleteDggState s) (time st + five_minutes)).

(** The event is a callback's removal of this nonce from this store. *)
Definition removes (p : provider) (nonce : string) (e : event) : Prop :=
  e = EvRemove p nonce.

(** No sleeping goroutine is the expiry of this nonce. *)
Definition no_older_expiry (p : provider) (nonce : string) (rt : Runtime)
    : Prop :=
  ∀ (i : nat) (g : goroutine),
    sleeping rt !! i = Some g -> body g ≠ expiry_task p nonce.

(** The nonce, issued when the clock read [t0], is still there as long as
    five minutes have not passed, and no goroutine that would remove it is
    due before. *)
Definition survives (p : provider) (s : string) (t0 : Z) (rt : Runtime) : Prop :=
  (∀ (i : nat) (g : goroutine),
     sleeping rt !! i = Some g -> body g = expiry_task p s ->
     t0 + five_minutes <= wake g)
  ∧ (clock rt < t0 + five_minutes -> issued p s (app rt)).

(** *** The guarded routes *)

(** The service tag and the operation that [main] gives each guarded
    route. *)
Definition route_service (r : route) : string :=
  match r with
  | TwitchDelete | TwitchUndelete => TWITCHSERVICE
  | DggDelete | DggUndelete => DESTINYGGSERVICE
  end.

Definition route_update (r : route) (name : string) (ur : UnRustleLogs)
    : UnRustleLogs :=
  match r with
  | TwitchDelete | DggDelete => AddUser name (route_service r) ur
  | TwitchUndelete | DggUndelete => DeleteUser name (route_service r) ur
  end.

Definition route_log (r : route) (display : string) : string :=
  match r with
  | TwitchDelete | DggDelete => display +:+ " requested log deletion"
  | TwitchUndelete | DggUndelete => display +:+ " requested to stop log deletion"
  end.

Definition route_location (r : route) : string :=
  match r with
  | TwitchDelete | DggDelete => "/?delete=true"
  | TwitchUndelete | DggUndelete => "/?delete=false"
  end.

(** The cookie, the two guarded routes and the section of the status page
    that belong to a provider. *)
Definition provider_cookie (p : provider) (cfg : Config) : string :=
  match p with
  | ProviderTwitch => Twitch_Cookie cfg
  | ProviderDgg => Destinygg_Cookie cfg
  end.

Definition delete_route (p : provider) : route :=
  match p with
  | ProviderTwitch => TwitchDelete
  | ProviderDgg => DggDelete
  end.

Definition undelete_route (p : provider) : route :=
  match p with
  | ProviderTwitch => TwitchUndelete
  | ProviderDgg => DggUndelete
  end.

Definition section_LoggedIn (p : provider) (page : Payload) : bool :=
  match p with
  | ProviderTwitch => PayloadTwitch.LoggedIn (Twitch page)
  | ProviderDgg => PayloadDestinygg.LoggedIn (Destinygg page)
  end.

Definition section_IsDeleting (p : provider) (page : Payload) : bool :=
  match p with
  | ProviderTwitch => PayloadTwitch.IsDeleting (Twitch page)
  | ProviderDgg => PayloadDestinygg.IsDeleting (Destinygg page)
  end.

Definition other_provider (p : provider) : provider :=
  match p with
  | ProviderTwitch => ProviderDgg
  | ProviderDgg => ProviderTwitch
  end.

(** The page a handler rendered: the payload of the HTML response that is
    the last thing it wrote. *)
Definition rendered_page (r : Go.result (gin.Context * UnRustleLogs))
    : option Payload :=
  match r with
  | Go.Ok (c, _) =>
      match last (gin.effects c) with
      | Some (WriteHTML _ _ page) => Some page
      | _ => None
      end
  | Go.Panic _ => None
  end.


(** ** Properties of the state stores *)

Lemma index_absent {A} (m : gmap string (Go.ptr A)) (k : string) :
  m !! k = None -> Go.index m k = (Go.nil, false).
Proof. intros H. unfold Go.index. by rewrite H. Qed.

Lemma index_present {A} (m : gmap string (Go.ptr A)) (k : string) (p : Go.ptr A) :
  m !! k = Some p -> Go.index m k = (p, true).
Proof. intros H. unfold Go.index. by rewrite H. Qed.

Lemma hasTwitchState_spec (ur : UnRustleLogs) (nonce : string) :
  hasTwitchState ur nonce = bool_decide (nonce ∈ twitchStates ur).
Proof. reflexivity. Qed.

Lemma hasTwitchState_absent (ur : UnRustleLogs) (nonce : string) :
  nonce ∉ twitchStates ur -> hasTwitchState ur nonce = false.
Proof. intros H. rewrite hasTwitchState_spec. by apply bool_decide_eq_false. Qed.

Lemma hasTwitchState_issued (ur : UnRustleLogs) (nonce : string) :
  nonce ∈ twitchStates ur -> hasTwitchState ur nonce = true.
Proof. intros H. rewrite hasTwitchState_spec. by apply bool_decide_eq_true. Qed.

Lemma hasDggState_issued (ur : UnRustleLogs) (nonce : string) (st : state) :
  dggStates ur !! nonce = Some (Some st) ->
  hasDggState ur nonce = Go.Ok (verifier st, true).
Proof. intros H. unfold hasDggState. by rewrite (index_present _ _ _ H). Qed.

Lemma hasDggState_absent (ur : UnRustleLogs) (nonce : string) :
  dggStates ur !! nonce = None ->
  hasDggState ur nonce = Go.Panic Go.nil_dereference.
Proof. intros H. unfold hasDggState. by rewrite (index_absent _ _ H). Qed.

Lemma deleteTwitchState_absent (ur : UnRustleLogs) (nonce : string) :
  nonce ∉ twitchStates ur -> deleteTwitchState nonce ur = ur.
Proof.
  intros H. unfold deleteTwitchState, Go.index_set.
  by rewrite bool_decide_eq_false_2.
Qed.

Lemma deleteDggState_absent (ur : UnRustleLogs) (nonce : string) :
  dggStates ur !! nonce = None -> deleteDggState nonce ur = ur.
Proof. intros H. unfold deleteDggState. by rewrite (index_absent _ _ H). Qed.

Lemma deleteTwitchState_gone (ur : UnRustleLogs) (nonce : string) :
  nonce ∉ twitchStates (deleteTwitchState nonce ur).
Proof.
  unfold deleteTwitchState, Go.index_set. case_bool_decide; simpl; [| done].
  apply not_elem_of_difference. right. by apply elem_of_singleton.
Qed.

Lemma deleteDggState_gone (ur : UnRustleLogs) (nonce : string) :
  dggStates (deleteDggState nonce ur) !! nonce = None.
Proof.
  unfold deleteDggState, Go.index.
  destruct (dggStates ur !! nonce) eqn:E; simpl; [apply lookup_delete_eq | done].
Qed.

Lemma remove_absent (p : provider) (nonce : string) (ur : UnRustleLogs) :
  absent p nonce ur -> remove p nonce ur = ur.
Proof.
  destruct p; simpl; [apply deleteTwitchState_absent | apply deleteDggState_absent].
Qed.

Lemma remove_gone (p : provider) (nonce : string) (ur : UnRustleLogs) :
  absent p nonce (remove p nonce ur).
Proof.
  destruct p; simpl; [apply deleteTwitchState_gone | apply deleteDggState_gone].
Qed.

Lemma lookup_issued (p : provider) (nonce : string) (ur : UnRustleLogs) :
  issued p nonce ur -> lookup p nonce ur = Go.Ok true.
Proof.
  destruct p; simpl.
  - intros H. by rewrite hasTwitchState_issued.
  - intros [st H]. by rewrite (hasDggState_issued _ _ _ H).
Qed.

Lemma lookup_absent_twitch (nonce : string) (ur : UnRustleLogs) :
  absent ProviderTwitch nonce ur -> lookup ProviderTwitch nonce ur = Go.Ok false.
Proof. simpl. intros H. by rewrite hasTwitchState_absent. Qed.

Lemma lookup_absent_dgg (nonce : string) (ur : UnRustleLogs) :
  absent ProviderDgg nonce ur ->
  lookup ProviderDgg nonce ur = Go.Panic Go.nil_dereference.
Proof. simpl. intros H. by rewrite hasDggState_absent. Qed.

Lemma run_expiry_task (p : provider) (nonce : string) (ur : UnRustleLogs) :
  run_task (expiry_task p nonce) ur = remove p nonce ur.
Proof. by destruct p. Qed.

(** C1.  [hasDggState] applied to a nonce that is not in the dgg store does
    not return [(_, false)]: the index expression yields the nil pointer
    and selecting [verifier] through it panics.  (For the twitch store the
    lookup of an absent nonce returns [false]: [hasTwitchState_absent].) *)
Theorem hasDggState_absent_nonce_faults (ur : UnRustleLogs) (nonce : string) :
  dggStates ur !! nonce = None ->
  hasDggState ur nonce = Go.Panic Go.nil_dereference
  ∧ (∀ v, hasDggState ur nonce ≠ Go.Ok (v, false))
  ∧ lookup ProviderDgg nonce ur = Go.Panic Go.nil_dereference.
Proof.
  intros H. rewrite (lookup_absent_dgg _ _ H), (hasDggState_absent _ _ H).
  repeat split. intros v Hv. discriminate Hv.
Qed.

Lemma hasDggState_absent_nonce_faults_witness :
  dggStates (NewUnRustleLogs Sample.cfg ∅) !! "never-issued" = None
  ∧ hasDggState (NewUnRustleLogs Sample.cfg ∅) "never-issued"
    = Go.Panic Go.nil_dereference.
Proof.
  split; [reflexivity |].
  apply (hasDggState_absent_nonce_faults (NewUnRustleLogs Sample.cfg ∅)
           "never-issued").
  reflexivity.
Defined.

(** C7.  Deleting a nonce that is not in the store leaves the store as it
    is, for both stores, and so does the expiry goroutine of a nonce that
    a callback has already removed. *)
Theorem delete_absent_is_noop (p : provider) (nonce : string) (ur : UnRustleLogs) :
  absent p nonce ur ->
  remove p nonce ur = ur
  ∧ run_task (expiry_task p nonce) ur = ur
  ∧ run_task (expiry_task p nonce) (remove p nonce ur) = remove p nonce ur.
Proof.
  intros H. pose proof (remove_absent _ _ _ H) as E.
  rewrite !run_expiry_task, E. by rewrite E.
Qed.

Lemma delete_absent_is_noop_witness :
  absent ProviderTwitch "n1" (NewUnRustleLogs Sample.cfg ∅)
  ∧ deleteTwitchState "n1" (NewUnRustleLogs Sample.cfg ∅)
    = NewUnRustleLogs Sample.cfg ∅.
Proof.
  split; [simpl; apply not_elem_of_empty |].
  apply (delete_absent_is_noop ProviderTwitch "n1" (NewUnRustleLogs Sample.cfg ∅)).
  simpl; apply not_elem_of_empty.
Defined.

Lemma delete_absent_is_noop_dgg_example :
  deleteDggState "n1" (NewUnRustleLogs Sample.cfg ∅) = NewUnRustleLogs Sample.cfg ∅.
Proof. reflexivity. Qed.

(** ** The service tag of a dgg entry *)

Lemma same_but_service_refl (a : Go.ptr state) : same_but_service a a.
Proof. by destruct a. Qed.

Lemma agree_but_service_refl (ur : UnRustleLogs) : agree_but_service ur ur.
Proof.
  repeat split. intros k. destruct (dggStates ur !! k); constructor.
  apply same_but_service_refl.
Qed.

Lemma agree_but_service_relabel (f : string -> string) (ur : UnRustleLogs) :
  agree_but_service ur (relabel f ur).
Proof.
  repeat split. intros k. simpl. rewrite lookup_fmap.
  destruct (dggStates ur !! k) as [[st|]|]; simpl; constructor; done.
Qed.

Lemma agree_hasDggState (u1 u2 : UnRustleLogs) (k : string) :
  agree_but_service u1 u2 -> hasDggState u1 k = hasDggState u2 k.
Proof.
  intros (_ & _ & _ & H). specialize (H k). unfold hasDggState, Go.index.
  destruct H as [[x|] [y|] H|]; simpl in *; try done.
  destruct H as [-> _]. done.
Qed.

Lemma agree_hasTwitchState (u1 u2 : UnRustleLogs) (k : string) :
  agree_but_service u1 u2 -> hasTwitchState u1 k = hasTwitchState u2 k.
Proof. intros (_ & _ & H & _). rewrite !hasTwitchState_spec. by rewrite H. Qed.

Lemma agree_deleteDggState (u1 u2 : UnRustleLogs) (k : string) :
  agree_but_service u1 u2 ->
  agree_but_service (deleteDggState k u1) (deleteDggState k u2).
Proof.
  intros (Hc & Hd & Ht & H). unfold deleteDggState, Go.index.
  pose proof (H k) as Hk.
  destruct Hk as [a b Hab|]; simpl.
  - repeat split; try done. intros j. simpl.
    destruct (decide (k = j)) as [->|Hne].
    + rewrite !lookup_delete_eq. constructor.
    + rewrite !lookup_delete_ne by done. apply H.
  - repeat split; done.
Qed.

Lemma agree_deleteTwitchState (u1 u2 : UnRustleLogs) (k : string) :
  agree_but_service u1 u2 ->
  agree_but_service (deleteTwitchState k u1) (deleteTwitchState k u2).
Proof.
  intros (Hc & Hd & Ht & H). unfold deleteTwitchState, Go.index_set.
  rewrite Ht. case_bool_decide; simpl; repeat split; simpl; try done.
  by rewrite Ht.
Qed.

Lemma agree_addDggState (r1 r2 : Runtime) (s v : string) :
  agree_but_service (app r1) (app r2) -> clock r1 = clock r2 ->
  agree_but_service (app (addDggState s v r1)) (app (addDggState s v r2)).
Proof.
  intros (Hc & Hd & Ht & H) Hclk. repeat split; try done. intros j. simpl.
  destruct (decide (s = j)) as [->|Hne].
  - rewrite !lookup_insert_eq. constructor. simpl. by rewrite Hclk.
  - rewrite !lookup_insert_ne by done. apply H.
Qed.

Lemma agree_addTwitchState (r1 r2 : Runtime) (s : string) :
  agree_but_service (app r1) (app r2) ->
  agree_but_service (app (addTwitchState s r1)) (app (addTwitchState s r2)).
Proof.
  intros (Hc & Hd & Ht & H). repeat split; simpl; try done. by rewrite Ht.
Qed.

Section HandlersAndService.

Variable ParseWithClaims : jwt.Parser.

Lemma agree_getUser (u1 u2 : UnRustleLogs) (c : gin.Context) (cookie : string) :
  agree_but_service u1 u2 ->
  getUser ParseWithClaims u1 c cookie = getUser ParseWithClaims u2 c cookie.
Proof. intros (Hc & _). unfold getUser. by rewrite Hc. Qed.

Lemma agree_UserInDatabase (u1 u2 : UnRustleLogs) (name service : string) :
  agree_but_service u1 u2 ->
  UserInDatabase name service u1 = UserInDatabase name service u2.
Proof. intros (_ & Hd & _). unfold UserInDatabase. by rewrite Hd. Qed.

Lemma agree_AddUser (u1 u2 : UnRustleLogs) (name service : string) :
  agree_but_service u1 u2 ->
  agree_but_service (AddUser name service u1) (AddUser name service u2).
Proof.
  intros (Hc & Hd & Ht & H). repeat split; simpl; try done. by rewrite Hd.
Qed.

Lemma agree_DeleteUser (u1 u2 : UnRustleLogs) (name service : string) :
  agree_but_service u1 u2 ->
  agree_but_service (DeleteUser name service u1) (DeleteUser name service u2).
Proof.
  intros (Hc & Hd & Ht & H). repeat split; simpl; try done. by rewrite Hd.
Qed.

Lemma agree_indexHandler (u1 u2 : UnRustleLogs) (c : gin.Context) :
  agree_but_service u1 u2 ->
  outcome_agrees (indexHandler ParseWithClaims c u1)
                 (indexHandler ParseWithClaims c u2).
Proof.
  intros H. unfold indexHandler.
  pose proof H as (Hc & Hd & Ht & _). unfold UserInDatabase. rewrite Hc, Hd.
  rewrite (agree_getUser u1 u2) by done.
  destruct (getUser ParseWithClaims u2 c _) as [[tw [|]] c1];
    rewrite (agree_getUser u1 u2) by done;
    destruct (getUser ParseWithClaims u2 c1 _) as [[dg [|]] c2];
    destruct tw as [tw|]; destruct dg as [dg|]; simpl; done.
Qed.

Lemma agree_deleteHandler (service : string) (u1 u2 : UnRustleLogs)
    (c : gin.Context) :
  agree_but_service u1 u2 ->
  outcome_agrees (deleteHandler service c u1) (deleteHandler service c u2).
Proof.
  intros H. unfold deleteHandler.
  destruct (gin.Get "user" c) as [[| cl |] [|]]; simpl; try done.
  split; [done | by apply agree_AddUser].
Qed.

Lemma agree_undeleteHandler (service : string) (u1 u2 : UnRustleLogs)
    (c : gin.Context) :
  agree_but_service u1 u2 ->
  outcome_agrees (undeleteHandler service c u1) (undeleteHandler service c u2).
Proof.
  intros H. unfold undeleteHandler.
  destruct (gin.Get "user" c) as [[| cl |] [|]]; simpl; try done.
  split; [done | by apply agree_DeleteUser].
Qed.

Lemma agree_jwtMiddleware (fn : gin.HandlerFunc) (cookie : string)
    (u1 u2 : UnRustleLogs) (c : gin.Context) :
  (∀ c', outcome_agrees (fn c' u1) (fn c' u2)) ->
  agree_but_service u1 u2 ->
  outcome_agrees (jwtMiddleware ParseWithClaims fn cookie c u1)
                 (jwtMiddleware ParseWithClaims fn cookie c u2).
Proof.
  intros Hfn H. unfold jwtMiddleware.
  destruct H as (Hc & Hd & Ht & H). rewrite Hc.
  assert (agree_but_service u1 u2) as Hag by done.
  destruct (gin.Cookie cookie c) as [v [e|]]; simpl; [done |].
  destruct (ParseWithClaims v _) as [tok [e|]]; simpl; [done |].
  destruct (assert_claims_ok _) as [cl [|]]; simpl.
  - destruct (jwt.Valid tok); simpl; [apply Hfn |].
    repeat case_bool_decide; simpl; done.
  - repeat case_bool_decide; simpl; done.
Qed.

Lemma agree_route_handler (r : route) (u1 u2 : UnRustleLogs) (c : gin.Context) :
  agree_but_service u1 u2 ->
  outcome_agrees (route_handler ParseWithClaims r c u1)
                 (route_handler ParseWithClaims r c u2).
Proof.
  intros H. pose proof H as (Hc & _). unfold route_handler. rewrite Hc.
  destruct r; apply agree_jwtMiddleware; try done; intros c';
    first [by apply agree_deleteHandler | by apply agree_undeleteHandler].
Qed.

End HandlersAndService.

(** C9.  An entry that [addDggState] creates carries the twitch tag
    ["twtch"] in its [service] field, not the dgg tag; and no operation
    reads that field: on two applications that differ only in the
    [service] fields of their dgg entries, the lookups return the same, the
    handlers answer the same, and the deletions, the issuances and the
    expiry goroutines keep the two applications as close. *)
Theorem dgg_service_tag_is_twitch_and_unread
    (parse : jwt.Parser) (r1 r2 : Runtime) (s v k : string) (c : gin.Context)
    (rt : route) :
  agree_but_service (app r1) (app r2) -> clock r1 = clock r2 ->
  (dggStates (app (addDggState s v r1)) !! s
     = Some (Some {| service := "twtch"; verifier := v; time := clock r1 |})
   ∧ TWITCHSERVICE = "twtch" ∧ "twtch" ≠ DESTINYGGSERVICE)
  ∧ hasDggState (app r1) k = hasDggState (app r2) k
  ∧ hasTwitchState (app r1) k = hasTwitchState (app r2) k
  ∧ agree_but_service (deleteDggState k (app r1)) (deleteDggState k (app r2))
  ∧ agree_but_service (deleteTwitchState k (app r1)) (deleteTwitchState k (app r2))
  ∧ agree_but_service (app (addDggState s v r1)) (app (addDggState s v r2))
  ∧ agree_but_service (app (addTwitchState s r1)) (app (addTwitchState s r2))
  ∧ outcome_agrees (indexHandler parse c (app r1)) (indexHandler parse c (app r2))
  ∧ outcome_agrees (route_handler parse rt c (app r1))
                   (route_handler parse rt c (app r2)).
Proof.
  intros H Hclk. split_and!.
  - simpl. apply lookup_insert_eq.
  - reflexivity.
  - discriminate.
  - by apply agree_hasDggState.
  - by apply agree_hasTwitchState.
  - by apply agree_deleteDggState.
  - by apply agree_deleteTwitchState.
  - by apply agree_addDggState.
  - by apply agree_addTwitchState.
  - by apply agree_indexHandler.
  - by apply agree_route_handler.
Qed.

(** ** Properties of the handlers *)

Section HandlerProperties.

Variable ParseWithClaims : jwt.Parser.

Lemma getUser_spec (ur : UnRustleLogs) (c : gin.Context) (name : string) :
  getUser ParseWithClaims ur c name =
    ((spec_session ParseWithClaims ur c name,
      bool_decide (is_Some (spec_session ParseWithClaims ur c name))),
     add_effects (spec_getUser_effects ParseWithClaims ur c name) c).
Proof.
  unfold getUser, spec_session, spec_getUser_effects, gin.Cookie, add_effects.
  destruct c as [ck q ks es]; simpl.
  destruct (ck !! name) as [v|]; simpl; [| by rewrite app_nil_r].
  destruct (ParseWithClaims v _) as [tok [e|]]; simpl.
  - unfold deleteCookie, logrus.Error, gin.emit; simpl. by rewrite <- app_assoc.
  - rewrite app_nil_r.
    destruct (jwt.Claims tok) as [|cl|]; simpl; try done.
    destruct (jwt.Valid tok); done.
Qed.

Lemma spec_getUser_effects_quiet (ur : UnRustleLogs) (c : gin.Context)
    (name : string) :
  Forall (fun e => is_response e = false)
    (spec_getUser_effects ParseWithClaims ur c name).
Proof.
  unfold spec_getUser_effects.
  destruct (gin.cookies c !! name) as [v|]; [| constructor].
  destruct (ParseWithClaims v _) as [tok [e|]]; repeat constructor.
Qed.

(** What [indexHandler] answers, in full. *)
Lemma indexHandler_spec (c : gin.Context) (ur : UnRustleLogs) :
  indexHandler ParseWithClaims c ur =
    Go.Ok
      (add_effects
         (spec_getUser_effects ParseWithClaims ur c (Twitch_Cookie (config ur))
          ++ spec_getUser_effects ParseWithClaims ur c
               (Destinygg_Cookie (config ur))
          ++ [WriteHTML http.StatusOK "index.tmpl"
                {| Title := TITLE;
                   Twitch :=
                     spec_twitch_section ur
                       (spec_session ParseWithClaims ur c
                          (Twitch_Cookie (config ur)));
                   Destinygg :=
                     spec_dgg_section ur
                       (spec_session ParseWithClaims ur c
                          (Destinygg_Cookie (config ur)));
                   DeleteStatus := gin.Query "delete" c |}]) c,
       ur).
Proof.
  unfold indexHandler. rewrite getUser_spec.
  set (c1 := add_effects _ c).
  rewrite getUser_spec.
  assert (spec_session ParseWithClaims ur c1 (Destinygg_Cookie (config ur))
          = spec_session ParseWithClaims ur c (Destinygg_Cookie (config ur)))
    as -> by reflexivity.
  assert (spec_getUser_effects ParseWithClaims ur c1 (Destinygg_Cookie (config ur))
          = spec_getUser_effects ParseWithClaims ur c
              (Destinygg_Cookie (config ur)))
    as -> by reflexivity.
  destruct (spec_session ParseWithClaims ur c (Twitch_Cookie (config ur)))
    as [tw|];
    destruct (spec_session ParseWithClaims ur c (Destinygg_Cookie (config ur)))
      as [dg|]; simpl.
  all: unfold gin.HTML, gin.emit, add_effects, gin.Query; subst c1; simpl.
  all: rewrite <- !app_assoc.
  all: case_bool_decide as Hq; simpl; [done |].
  all: by rewrite Hq.
Qed.

End HandlerProperties.

(** C6.  [indexHandler] answers every request with one response, the
    status page with HTTP 200; what else it does is log and clear cookies.
    Each provider's section depends on that provider's cookie alone: no
    valid session gives [LoggedIn = false], and a valid session gives
    [LoggedIn = true], the claims' display name, and [IsDeleting] as
    [UserInDatabase] has it for the claims' name and that service. *)
Theorem indexHandler_renders_status (parse : jwt.Parser) (c : gin.Context)
    (ur : UnRustleLogs) :
  ∃ (quiet : list effect) (payload : Payload),
    indexHandler parse c ur
      = Go.Ok (add_effects
                 (quiet ++ [WriteHTML http.StatusOK "index.tmpl" payload]) c, ur)
    ∧ http.StatusOK = 200
    ∧ Forall (fun e => is_response e = false) quiet
    ∧ Twitch payload =
        match spec_session parse ur c (Twitch_Cookie (config ur)) with
        | Some cl =>
            PayloadTwitch.mk (DisplayName cl) (Email cl) true
              (UserInDatabase (Name cl) TWITCHSERVICE ur)
        | None => PayloadTwitch.mk "" "" false false
        end
    ∧ Destinygg payload =
        match spec_session parse ur c (Destinygg_Cookie (config ur)) with
        | Some cl =>
            PayloadDestinygg.mk (DisplayName cl) true
              (UserInDatabase (Name cl) DESTINYGGSERVICE ur)
        | None => PayloadDestinygg.mk "" false false
        end.
Proof.
  eexists (_ ++ _), _. rewrite indexHandler_spec, <- app_assoc.
  split_and!; [reflexivity | reflexivity | | reflexivity | reflexivity].
  apply Forall_app; split; apply spec_getUser_effects_quiet.
Qed.

Example indexHandler_valid_twitch_session :
  ∃ c',
    indexHandler Sample.parse
      (Sample.request [("jwt_twitch", "bob.signed")] [])
      (AddUser "bob" TWITCHSERVICE (NewUnRustleLogs Sample.cfg ∅))
    = Go.Ok (c', AddUser "bob" TWITCHSERVICE (NewUnRustleLogs Sample.cfg ∅))
    ∧ gin.effects c' =
        [WriteHTML 200 "index.tmpl"
           {| Title := "UnRustleLogs";
              Twitch := PayloadTwitch.mk "Bob" "bob@example.com" true true;
              Destinygg := PayloadDestinygg.mk "" false false;
              DeleteStatus := "" |}].
Proof. eexists. split; vm_compute; reflexivity. Qed.

(** C10.  The page's [DeleteStatus] is the request's [delete] query
    parameter as it came, whatever non-empty string that is, and the empty
    string when the parameter is absent or empty. *)
Theorem indexHandler_reflects_delete_param (parse : jwt.Parser)
    (c : gin.Context) (ur : UnRustleLogs) :
  ∃ (quiet : list effect) (payload : Payload),
    indexHandler parse c ur
      = Go.Ok (add_effects
                 (quiet ++ [WriteHTML http.StatusOK "index.tmpl" payload]) c, ur)
    ∧ DeleteStatus payload = gin.Query "delete" c
    ∧ gin.Query "delete" c =
        match gin.query c !! "delete" with
        | Some s => s
        | None => ""
        end.
Proof.
  eexists (_ ++ _), _. rewrite indexHandler_spec, <- app_assoc.
  split_and!; reflexivity.
Qed.

Example indexHandler_reflects_any_string :
  ∃ c' twitch dgg,
    indexHandler Sample.parse (Sample.request [] [("delete", "<b>hello</b>")])
      (NewUnRustleLogs Sample.cfg ∅)
    = Go.Ok (c', NewUnRustleLogs Sample.cfg ∅)
    ∧ gin.effects c' =
        [WriteHTML 200 "index.tmpl"
           (mkPayload "UnRustleLogs" twitch dgg "<b>hello</b>")].
Proof. do 3 eexists. split; vm_compute; reflexivity. Qed.

(** C3.  On a session cookie that the library rejects, the guarded routes
    log the error, answer HTTP 401 with the JSON body [{"message":
    "error"}], and call [deleteCookie] with the cookie's value, so that the
    cookie that is cleared is the one named by the rejected token string;
    the cookie of the configured name is cleared only if its value happens
    to be its own name. *)
Theorem jwtMiddleware_clears_cookie_named_by_value (parse : jwt.Parser)
    (r : route) (c : gin.Context) (ur : UnRustleLogs)
    (value : string) (token : jwt.Token) (err : string) :
  gin.cookies c !! route_cookie r (config ur) = Some value ->
  parse value (Server_JWTSecret (config ur)) = (token, Some err) ->
  route_handler parse r c ur
    = Go.Ok (add_effects
               [LogError err; ClearCookie value;
                WriteJSON 401 [("message", "error")]] c, ur)
  ∧ (value ≠ route_cookie r (config ur) ->
     ClearCookie (route_cookie r (config ur))
       ∉ [LogError err; ClearCookie value; WriteJSON 401 [("message", "error")]]).
Proof.
  intros Hck Hparse. split.
  - unfold route_handler.
    destruct r; simpl in Hck; unfold jwtMiddleware, gin.Cookie;
      rewrite Hck, Hparse; simpl;
      unfold gin.JSON, deleteCookie, logrus.Error, gin.emit, add_effects; simpl;
      by rewrite <- !app_assoc.
  - intros Hne Hin.
    apply list_elem_of_In in Hin. simpl in Hin.
    destruct Hin as [H | [H | [H | []]]]; try discriminate H.
    injection H as H. by apply Hne.
Qed.

Lemma jwtMiddleware_clears_cookie_named_by_value_witness :
  let c := Sample.request [("jwt_twitch", "bob.expired")] [] in
  let ur := NewUnRustleLogs Sample.cfg ∅ in
  route_handler Sample.parse TwitchDelete c ur
    = Go.Ok (add_effects
               [LogError "token is expired by 1h0m0s"; ClearCookie "bob.expired";
                WriteJSON 401 [("message", "error")]] c, ur)
  ∧ ClearCookie "jwt_twitch"
      ∉ [LogError "token is expired by 1h0m0s"; ClearCookie "bob.expired";
         WriteJSON 401 [("message", "error")]].
Proof.
  intros c ur.
  destruct (jwtMiddleware_clears_cookie_named_by_value Sample.parse TwitchDelete
              c ur "bob.expired" (jwt.mkToken (AnyClaims Sample.bob) false)
              "token is expired by 1h0m0s") as [H1 H2].
  - reflexivity.
  - reflexivity.
  - split; [exact H1 | apply H2; discriminate].
Defined.

(** What the two preference handlers answer to an authenticated request. *)
Lemma deleteHandler_authenticated (service : string) (c : gin.Context)
    (ur : UnRustleLogs) (cl : jwtClaims) :
  gin.Get "user" c = (AnyClaims cl, true) ->
  deleteHandler service c ur
    = Go.Ok (add_effects [LogInfo (DisplayName cl +:+ " requested log deletion");
                          WriteRedirect 302 "/?delete=true"] c,
             AddUser (Name cl) service ur).
Proof.
  intros H. unfold deleteHandler. rewrite H. simpl.
  unfold gin.Redirect, logrus.Info, gin.emit, add_effects. simpl.
  by rewrite <- app_assoc.
Qed.

Lemma undeleteHandler_authenticated (service : string) (c : gin.Context)
    (ur : UnRustleLogs) (cl : jwtClaims) :
  gin.Get "user" c = (AnyClaims cl, true) ->
  undeleteHandler service c ur
    = Go.Ok (add_effects
               [LogInfo (DisplayName cl +:+ " requested to stop log deletion");
                WriteRedirect 302 "/?delete=false"] c,
             DeleteUser (Name cl) service ur).
Proof.
  intros H. unfold undeleteHandler. rewrite H. simpl.
  unfold gin.Redirect, logrus.Info, gin.emit, add_effects. simpl.
  by rewrite <- app_assoc.
Qed.

Lemma DeleteUser_AddUser (name service : string) (ur : UnRustleLogs) :
  (name, service) ∉ db ur ->
  DeleteUser name service (AddUser name service ur) = ur.
Proof.
  intros H. destruct ur as [cfg d dgg tw]. unfold DeleteUser, AddUser, set_db.
  simpl in *. f_equal. apply set_eq. intros x.
  rewrite elem_of_difference, elem_of_union, elem_of_singleton.
  split; [intros [[->|Hx] Hn]; done |].
  intros Hx. split; [by right |]. intros ->. done.
Qed.

Lemma AddUser_AddUser (name service : string) (ur : UnRustleLogs) :
  AddUser name service (AddUser name service ur) = AddUser name service ur.
Proof.
  destruct ur as [cfg d dgg tw]. unfold AddUser, set_db. simpl. f_equal.
  apply set_eq. intros x. rewrite !elem_of_union. tauto.
Qed.

(** C5.  For an authenticated identity whose preference row does not
    exist, the delete handler followed by the undelete handler leaves the
    application as it was before the two requests; and the delete handler
    run twice leaves it as after one run. *)
Theorem delete_undelete_restores_and_delete_idempotent (service : string)
    (c1 c2 : gin.Context) (ur : UnRustleLogs) (cl : jwtClaims) :
  gin.Get "user" c1 = (AnyClaims cl, true) ->
  gin.Get "user" c2 = (AnyClaims cl, true) ->
  ∃ c1' u1,
    deleteHandler service c1 ur = Go.Ok (c1', u1)
    ∧ UserInDatabase (Name cl) service u1 = true
    ∧ (∃ c2', deleteHandler service c2 u1 = Go.Ok (c2', u1))
    ∧ ((Name cl, service) ∉ db ur ->
       ∃ c2', undeleteHandler service c2 u1 = Go.Ok (c2', ur)
              ∧ UserInDatabase (Name cl) service ur = false).
Proof.
  intros H1 H2. eexists _, _. split; [by apply deleteHandler_authenticated |].
  split_and!.
  - unfold UserInDatabase, AddUser. simpl. apply bool_decide_eq_true.
    apply elem_of_union. left. by apply elem_of_singleton.
  - eexists. rewrite (deleteHandler_authenticated _ _ _ _ H2).
    by rewrite AddUser_AddUser.
  - intros Hfresh. eexists. rewrite (undeleteHandler_authenticated _ _ _ _ H2).
    rewrite DeleteUser_AddUser by done. split; [done |].
    unfold UserInDatabase. by apply bool_decide_eq_false.
Qed.

Lemma delete_undelete_restores_and_delete_idempotent_witness :
  let c := gin.SetKey "user" (AnyClaims Sample.bob) (Sample.request [] []) in
  let ur := NewUnRustleLogs Sample.cfg ∅ in
  ∃ c1' u1,
    deleteHandler TWITCHSERVICE c ur = Go.Ok (c1', u1)
    ∧ UserInDatabase "bob" TWITCHSERVICE u1 = true
    ∧ (∃ c2', deleteHandler TWITCHSERVICE c u1 = Go.Ok (c2', u1))
    ∧ ∃ c2', undeleteHandler TWITCHSERVICE c u1 = Go.Ok (c2', ur)
             ∧ UserInDatabase "bob" TWITCHSERVICE ur = false.
Proof.
  intros c ur.
  destruct (delete_undelete_restores_and_delete_idempotent TWITCHSERVICE
              c c ur Sample.bob) as (c1' & u1 & Hd & Hin & Hdd & Hu).
  - reflexivity.
  - reflexivity.
  - exists c1', u1. split_and!; [exact Hd | exact Hin | exact Hdd |].
    apply Hu. simpl. apply not_elem_of_empty.
Defined.

(** C8.  [jwtMiddleware] calls the wrapped handler only for a request
    that carries a valid session, and then on the context on which it has
    set the key ["user"] to the session's claims; every other request it
    answers itself, whatever the wrapped handler is.  On the context it
    passes, [deleteHandler] and [undeleteHandler] find the key, so what
    they answer is the redirect and never their own 401 response. *)
Theorem jwtMiddleware_sets_user_before_handler (parse : jwt.Parser)
    (fn : gin.HandlerFunc) (cookie service : string) (c : gin.Context)
    (ur : UnRustleLogs) :
  match spec_session parse ur c cookie with
  | Some cl =>
      let c' := gin.SetKey "user" (AnyClaims cl) c in
      jwtMiddleware parse fn cookie c ur = fn c' ur
      ∧ gin.Get "user" c' = (AnyClaims cl, true)
      ∧ jwtMiddleware parse (deleteHandler service) cookie c ur
        = Go.Ok (add_effects
                   [LogInfo (DisplayName cl +:+ " requested log deletion");
                    WriteRedirect 302 "/?delete=true"] c',
                 AddUser (Name cl) service ur)
      ∧ jwtMiddleware parse (undeleteHandler service) cookie c ur
        = Go.Ok (add_effects
                   [LogInfo (DisplayName cl +:+ " requested to stop log deletion");
                    WriteRedirect 302 "/?delete=false"] c',
                 DeleteUser (Name cl) service ur)
      ∧ deleteHandler service c' ur
        ≠ Go.Ok (gin.JSON http.StatusUnauthorized
                   [("message", "Unauthorized")] c', ur)
      ∧ undeleteHandler service c' ur
        ≠ Go.Ok (gin.JSON http.StatusUnauthorized
                   [("message", "Unauthorized")] c', ur)
  | None =>
      ∀ fn' : gin.HandlerFunc,
        jwtMiddleware parse fn cookie c ur = jwtMiddleware parse fn' cookie c ur
  end.
Proof.
  assert (∀ (g : gin.HandlerFunc),
    jwtMiddleware parse g cookie c ur =
      match spec_session parse ur c cookie with
      | Some cl => g (gin.SetKey "user" (AnyClaims cl) c) ur
      | None => jwtMiddleware parse (fun c ur => Go.Ok (c, ur)) cookie c ur
      end) as Hmw.
  { intros g. unfold jwtMiddleware, spec_session, gin.Cookie.
    destruct (gin.cookies c !! cookie) as [v|]; simpl; [| done].
    destruct (parse v _) as [tok [e|]]; simpl; [done |].
    destruct (jwt.Claims tok) as [|cl|]; simpl; try done.
    destruct (jwt.Valid tok); done. }
  destruct (spec_session parse ur c cookie) as [cl|] eqn:Hs.
  - assert (gin.Get "user" (gin.SetKey "user" (AnyClaims cl) c)
            = (AnyClaims cl, true)) as Hget.
    { unfold gin.Get, gin.SetKey. simpl. by rewrite lookup_insert_eq. }
    cbv zeta. rewrite !Hmw.
    rewrite (deleteHandler_authenticated _ _ _ _ Hget).
    rewrite (undeleteHandler_authenticated _ _ _ _ Hget).
    split_and!; try done.
    + intros H. injection H as H _.
      apply (f_equal length) in H. rewrite !length_app in H. simpl in H. lia.
    + intros H. injection H as H _.
      apply (f_equal length) in H. rewrite !length_app in H. simpl in H. lia.
  - intros fn'. by rewrite !Hmw.
Qed.

(** ** Expiry of the entries *)

Lemma issue_issued (p : provider) (nonce verifier : string) (rt : Runtime) :
  issued p nonce (app (issue p nonce verifier rt)).
Proof.
  destruct p; simpl.
  - apply elem_of_union. left. by apply elem_of_singleton.
  - eexists. apply lookup_insert_eq.
Qed.

Lemma issue_schedules (p : provider) (nonce verifier : string) (rt : Runtime) :
  sleeping (issue p nonce verifier rt)
    = sleeping rt ++ [{| wake := clock rt + five_minutes;
                         body := expiry_task p nonce |}]
  ∧ clock (issue p nonce verifier rt) = clock rt.
Proof. by destruct p. Qed.

Lemma issue_schedules_at (p : provider) (nonce verifier : string) (rt : Runtime) :
  sleeping (issue p nonce verifier rt) !! length (sleeping rt)
    = Some {| wake := clock rt + five_minutes; body := expiry_task p nonce |}.
Proof.
  destruct (issue_schedules p nonce verifier rt) as [-> _].
  by apply list_lookup_middle.
Qed.

Lemma resume_too_early (i : nat) (rt : Runtime) (g : goroutine) :
  sleeping rt !! i = Some g -> clock rt < wake g -> resume i rt = None.
Proof.
  intros Hg Hlt. unfold resume. rewrite Hg.
  rewrite bool_decide_eq_false_2; [done | lia].
Qed.

Lemma resume_expiry (p : provider) (nonce : string) (i : nat) (rt : Runtime)
    (w : Z) :
  sleeping rt !! i = Some {| wake := w; body := expiry_task p nonce |} ->
  w <= clock rt ->
  resume i rt = Some {| app := remove p nonce (app rt); clock := clock rt;
                        sleeping := delete i (sleeping rt) |}.
Proof.
  intros Hg Hle. unfold resume. rewrite Hg. simpl.
  rewrite bool_decide_eq_true_2 by done. by rewrite run_expiry_task.
Qed.

(** C4.  An issuance starts a goroutine that sleeps five minutes and then
    deletes the entry; it cannot run earlier, and once it has run the nonce
    is absent from the store.  The lookup of the twitch store then returns
    not-found; the lookup of the dgg store does not return: it panics on
    the nil pointer of the absent entry. *)
Theorem expired_entry_lookup (p : provider) (nonce verifier : string)
    (rt : Runtime) (d : Z) :
  five_minutes <= d ->
  let rt1 := issue p nonce verifier rt in
  let i := length (sleeping rt) in
  lookup p nonce (app rt1) = Go.Ok true
  ∧ sleeping rt1 !! i
      = Some {| wake := clock rt + Go.Minute * 5; body := expiry_task p nonce |}
  ∧ resume i rt1 = None
  ∧ ∃ rt2, resume i (elapse d rt1) = Some rt2
      ∧ absent p nonce (app rt2)
      ∧ lookup p nonce (app rt2)
        = match p with
          | ProviderTwitch => Go.Ok false
          | ProviderDgg => Go.Panic Go.nil_dereference
          end.
Proof.
  intros Hd rt1 i. subst rt1 i.
  pose proof (issue_schedules_at p nonce verifier rt) as Hs.
  pose proof (issue_schedules p nonce verifier rt) as [_ Hclk].
  split_and!.
  - apply lookup_issued, issue_issued.
  - exact Hs.
  - eapply resume_too_early; [exact Hs |]. rewrite Hclk. simpl.
    unfold five_minutes. lia.
  - eexists. split; [| split].
    + apply (resume_expiry p nonce _ (elapse d (issue p nonce verifier rt))
               (clock rt + five_minutes)); [exact Hs |].
      simpl. rewrite Hclk. lia.
    + simpl. apply remove_gone.
    + simpl. pose proof (remove_gone p nonce (app (issue p nonce verifier rt))).
      destruct p; [by apply lookup_absent_twitch | by apply lookup_absent_dgg].
Qed.

Lemma expired_entry_lookup_witness :
  let rt1 :=
    addDggState "n1" "v1" (mkRuntime (NewUnRustleLogs Sample.cfg ∅) 0 []) in
  hasDggState (app rt1) "n1" = Go.Ok ("v1", true)
  ∧ ∃ rt2, resume 0 (elapse (Go.Minute * 5) rt1) = Some rt2
      ∧ dggStates (app rt2) !! "n1" = None
      ∧ hasDggState (app rt2) "n1" = Go.Panic Go.nil_dereference.
Proof.
  intros rt1.
  destruct (expired_entry_lookup ProviderDgg "n1" "v1"
              (mkRuntime (NewUnRustleLogs Sample.cfg ∅) 0 []) (Go.Minute * 5))
    as (H1 & _ & _ & rt2 & H2 & H3 & H4).
  - vm_compute. discriminate.
  - split; [reflexivity |].
    exists rt2. split; [exact H2 | split; [exact H3 |]].
    rewrite (hasDggState_absent _ _ H3). reflexivity.
Defined.

(** ** Concurrent callbacks on one nonce *)

Lemma caller_step_late (p : provider) (nonce : string) (ur : UnRustleLogs) :
  absent p nonce ur ->
  caller_step p nonce AtLookup ur = (late_outcome p, ur).
Proof.
  intros H. unfold caller_step.
  destruct p; [by rewrite lookup_absent_twitch | by rewrite lookup_absent_dgg].
Qed.

Lemma caller_step_first (p : provider) (nonce : string) (ur : UnRustleLogs) :
  issued p nonce ur -> caller_step p nonce AtLookup ur = (AtDelete, ur).
Proof. intros H. unfold caller_step. by rewrite lookup_issued. Qed.

Lemma late_outcome_not_found (p : provider) :
  observed_found (late_outcome p) = false ∧ finished (late_outcome p) = true.
Proof. by destruct p. Qed.

Lemma sched_step_inv (p : provider) (nonce : string) (σ : system) (i : nat) :
  race_inv p nonce σ -> race_inv p nonce (sched_step p nonce σ i).
Proof.
  intros Hinv. unfold sched_step.
  destruct (callers σ !! i) as [pc|] eqn:Hi; [| exact Hinv].
  pose proof (lookup_lt_Some _ _ _ Hi) as Hlt.
  destruct pc as [| |b|].
  - destruct Hinv as [[Hiss Hall] | [Habs (j & pcj & Hj & Hobs)]].
    + rewrite caller_step_first by done. left. simpl. split; [done |].
      by apply Forall_insert.
    + rewrite caller_step_late by done. right. simpl. split; [done |].
      exists j, pcj. split; [| done].
      rewrite list_lookup_insert_ne; [done |].
      intros ->. rewrite Hi in Hj. by injection Hj as <-.
  - simpl. right. simpl. split; [apply remove_gone |].
    exists i, (Done true). split; [| done]. by apply list_lookup_insert_eq.
  - simpl. rewrite list_insert_id by done. by destruct σ.
  - simpl. rewrite list_insert_id by done. by destruct σ.
Qed.

Lemma run_inv (p : provider) (nonce : string) (sched : list nat) (σ : system) :
  race_inv p nonce σ -> race_inv p nonce (run p nonce sched σ).
Proof.
  unfold run. revert σ.
  induction sched as [|i sched IH]; intros σ Hinv; simpl; [done |].
  apply IH. by apply sched_step_inv.
Qed.

Lemma sched_step_length (p : provider) (nonce : string) (σ : system) (i : nat) :
  length (callers (sched_step p nonce σ i)) = length (callers σ).
Proof.
  unfold sched_step. destruct (callers σ !! i) as [pc|]; [| done].
  destruct (caller_step p nonce pc (store σ)). simpl. apply length_insert.
Qed.

Lemma run_length (p : provider) (nonce : string) (sched : list nat) (σ : system) :
  length (callers (run p nonce sched σ)) = length (callers σ).
Proof.
  unfold run. revert σ.
  induction sched as [|i sched IH]; intros σ; simpl; [done |].
  rewrite IH. apply sched_step_length.
Qed.

Lemma race_inv_finished (p : provider) (nonce : string) (σ : system) :
  race_inv p nonce σ -> callers σ ≠ [] ->
  Forall (fun pc => finished pc = true) (callers σ) ->
  absent p nonce (store σ) ∧ ∃ i : nat, callers σ !! i = Some (Done true).
Proof.
  intros [[_ Hall] | [Habs (j & pcj & Hj & Hobs)]] Hne Hfin.
  - destruct (callers σ) as [|pc cs]; [done |].
    apply Forall_cons in Hall as [H1 _]. apply Forall_cons in Hfin as [H2 _].
    congruence.
  - split; [done |]. exists j.
    pose proof (Forall_lookup_1 _ _ _ _ Hfin Hj) as Hf.
    destruct pcj as [| |[|]|]; simpl in *; done.
Qed.

(** The callers after the first, one after another, on a store that no
    longer has the nonce. *)
Lemma run_late_callers (p : provider) (nonce : string) (ur : UnRustleLogs)
    (m : nat) (pre : list caller) :
  absent p nonce ur ->
  run p nonce (flat_map (fun i => [i; i]) (seq (length pre) m))
    {| store := ur; callers := pre ++ replicate m AtLookup |}
  = {| store := ur; callers := pre ++ replicate m (late_outcome p) |}.
Proof.
  intros Habs. revert pre.
  induction m as [|m IH]; intros pre; [done |].
  cbn [seq flat_map replicate]. unfold run. rewrite foldl_app. cbn [foldl].
  assert (sched_step p nonce
            {| store := ur; callers := pre ++ AtLookup :: replicate m AtLookup |}
            (length pre)
          = {| store := ur;
               callers := pre ++ late_outcome p :: replicate m AtLookup |}) as ->.
  { unfold sched_step. simpl. rewrite list_lookup_middle by done.
    rewrite caller_step_late by done. f_equal.
    replace (length pre) with (length pre + 0)%nat at 1 by lia.
    by rewrite insert_app_r. }
  assert (sched_step p nonce
            {| store := ur;
               callers := pre ++ late_outcome p :: replicate m AtLookup |}
            (length pre)
          = {| store := ur;
               callers := pre ++ late_outcome p :: replicate m AtLookup |}) as ->.
  { unfold sched_step. simpl. rewrite list_lookup_middle by done.
    assert (caller_step p nonce (late_outcome p) ur = (late_outcome p, ur))
      as -> by (by destruct p).
    f_equal. apply list_insert_id. by apply list_lookup_middle. }
  specialize (IH (pre ++ [late_outcome p])).
  rewrite length_app in IH. simpl in IH.
  replace (length pre + 1)%nat with (S (length pre)) in IH by lia.
  rewrite <- !app_assoc in IH. simpl in IH. exact IH.
Qed.

Lemma run_one_after_another (p : provider) (nonce : string) (ur : UnRustleLogs)
    (n : nat) :
  issued p nonce ur ->
  run p nonce (one_after_another (S n))
    {| store := ur; callers := replicate (S n) AtLookup |}
  = {| store := remove p nonce ur;
       callers := Done true :: replicate n (late_outcome p) |}.
Proof.
  intros Hiss. unfold one_after_another.
  cbn [seq flat_map replicate]. unfold run. rewrite foldl_app. cbn [foldl].
  assert (sched_step p nonce
            {| store := ur; callers := AtLookup :: replicate n AtLookup |} 0
          = {| store := ur; callers := AtDelete :: replicate n AtLookup |}) as ->.
  { unfold sched_step. cbn [callers store].
    change ((AtLookup :: replicate n AtLookup) !! 0%nat) with (Some AtLookup).
    cbv beta iota. by rewrite caller_step_first. }
  assert (sched_step p nonce
            {| store := ur; callers := AtDelete :: replicate n AtLookup |} 0
          = {| store := remove p nonce ur;
               callers := Done true :: replicate n AtLookup |}) as -> by done.
  apply (run_late_callers p nonce (remove p nonce ur) n [Done true]).
  apply remove_gone.
Qed.

Lemma exactly_one_found_first (m : nat) :
  exactly_one_found (Done true :: replicate m (Done false)).
Proof.
  exists 0%nat. split; [done |]. intros j Hj Hlt.
  destruct j as [|j]; [done |]. simpl in *.
  apply lookup_replicate_2. rewrite length_replicate in Hlt. lia.
Qed.

(** C2, as stated, fails: two callbacks present the nonce that was issued
    once; both look it up before either deletes it, and both see
    [found = true]. *)
Lemma concurrent_callbacks_both_found :
  let σ := run ProviderTwitch "n1" [0; 1; 0; 1]%nat
             {| store := twitch_issued_once; callers := [AtLookup; AtLookup] |} in
  issued ProviderTwitch "n1" twitch_issued_once
  ∧ callers σ = [Done true; Done true]
  ∧ ¬ exactly_one_found (callers σ).
Proof.
  split; [| split].
  - simpl. apply elem_of_union. left. by apply elem_of_singleton.
  - vm_compute. reflexivity.
  - intros (i & Hi & Hothers).
    assert (callers (run ProviderTwitch "n1" [0; 1; 0; 1]%nat
              {| store := twitch_issued_once; callers := [AtLookup; AtLookup] |})
            = [Done true; Done true]) as E by (vm_compute; reflexivity).
    rewrite E in Hi, Hothers.
    destruct i as [|[|i]].
    + specialize (Hothers 1%nat). simpl in Hothers.
      assert (Some (Done true) = Some (Done false)) as C
        by (apply Hothers; lia). discriminate C.
    + specialize (Hothers 0%nat). simpl in Hothers.
      assert (Some (Done true) = Some (Done false)) as C
        by (apply Hothers; lia). discriminate C.
    + discriminate Hi.
Qed.

(** C2, amended.  The lookup and the delete are two critical sections.
    For a nonce that is in a provider's store and any number of callers
    that each look it up and, when they found it, delete it: however the
    callers are interleaved, once all of them have finished the nonce is
    gone and at least one of them has seen [found = true]; and when the
    callers run one after another, the first sees [found = true], it is the
    only one that does, and in the twitch store every other caller sees
    [found = false]. *)
Theorem callers_lookup_then_delete (p : provider) (nonce : string)
    (ur : UnRustleLogs) (n : nat) (sched : list nat) :
  issued p nonce ur -> (1 <= n)%nat ->
  let σ0 := {| store := ur; callers := replicate n AtLookup |} in
  (Forall (fun pc => finished pc = true) (callers (run p nonce sched σ0)) ->
   absent p nonce (store (run p nonce sched σ0))
   ∧ ∃ i : nat, callers (run p nonce sched σ0) !! i = Some (Done true))
  ∧ absent p nonce (store (run p nonce (one_after_another n) σ0))
  ∧ (∃ rest,
       callers (run p nonce (one_after_another n) σ0) = Done true :: rest
       ∧ Forall (fun pc => observed_found pc = false ∧ finished pc = true) rest)
  ∧ (p = ProviderTwitch ->
     exactly_one_found (callers (run p nonce (one_after_another n) σ0))).
Proof.
  intros Hiss Hn σ0. split; [| split; [| split]].
  - intros Hfin. apply race_inv_finished; [| | exact Hfin].
    + apply run_inv. left. split; [exact Hiss |]. simpl.
      by apply Forall_replicate.
    + intros E. apply (f_equal length) in E.
      rewrite run_length in E. simpl in E. rewrite length_replicate in E. lia.
  - destruct n as [|m]; [lia |]. subst σ0.
    rewrite run_one_after_another by done. simpl. apply remove_gone.
  - destruct n as [|m]; [lia |]. subst σ0.
    rewrite run_one_after_another by done. simpl.
    eexists. split; [reflexivity |].
    apply Forall_replicate. apply late_outcome_not_found.
  - intros ->. destruct n as [|m]; [lia |]. subst σ0.
    rewrite run_one_after_another by done. simpl.
    apply exactly_one_found_first.
Qed.

Lemma callers_lookup_then_delete_witness :
  let σ0 := {| store := twitch_issued_once; callers := replicate 2 AtLookup |} in
  issued ProviderTwitch "n1" twitch_issued_once
  ∧ (∃ i : nat,
       callers (run ProviderTwitch "n1" [0; 1; 0; 1]%nat σ0) !! i
       = Some (Done true))
  ∧ exactly_one_found
      (callers (run ProviderTwitch "n1" (one_after_another 2) σ0)).
Proof.
  intros σ0.
  assert (issued ProviderTwitch "n1" twitch_issued_once) as Hiss.
  { simpl. apply elem_of_union. left. by apply elem_of_singleton. }
  assert (1 <= 2)%nat as Hn by lia.
  destruct (callers_lookup_then_delete ProviderTwitch "n1" twitch_issued_once
              2 [0; 1; 0; 1]%nat Hiss Hn) as (Hany & _ & _ & Hseq).
  split; [exact Hiss | split].
  - apply Hany. vm_compute. repeat constructor.
  - apply Hseq. reflexivity.
Defined.

Lemma dgg_replay_one_after_another :
  callers (run ProviderDgg "n1" (one_after_another 2)
             {| store := app (addDggState "n1" "v1"
                                (mkRuntime (NewUnRustleLogs Sample.cfg ∅) 0 []));
                callers := [AtLookup; AtLookup] |})
  = [Done true; Crashed].
Proof. vm_compute. reflexivity. Qed.

Lemma dgg_service_tag_is_twitch_and_unread_witness :
  let r1 := addDggState "n1" "v1" (mkRuntime (NewUnRustleLogs Sample.cfg ∅) 0 []) in
  let r2 := mkRuntime (relabel (fun _ => DESTINYGGSERVICE) (app r1)) 0 [] in
  agree_but_service (app r1) (app r2)
  ∧ dggStates (app r1) !! "n1" = Some (Some (mkState "twtch" "v1" 0))
  ∧ dggStates (app r2) !! "n1" = Some (Some (mkState "destinygg" "v1" 0))
  ∧ hasDggState (app r1) "n1" = hasDggState (app r2) "n1".
Proof.
  intros r1 r2.
  assert (agree_but_service (app r1) (app r2)) as Hag
    by apply agree_but_service_relabel.
  assert (clock r1 = clock r2) as Hclk by reflexivity.
  destruct (dgg_service_tag_is_twitch_and_unread Sample.parse r1 r2 "n1" "v1"
              "n1" (Sample.request [] []) DggDelete Hag Hclk)
    as (_ & Hhas & _).
  split; [exact Hag | split; [reflexivity | split; [reflexivity | exact Hhas]]].
Defined.

(** ** Further properties of the state stores *)

Lemma deleteTwitchState_alt (k : string) (ur : UnRustleLogs) :
  deleteTwitchState k ur = set_twitchStates (fun m => m ∖ {[k]}) ur.
Proof.
  unfold deleteTwitchState, Go.index_set. case_bool_decide as Hk; [done |].
  destruct ur as [cfg d dgg tw]. unfold set_twitchStates. simpl in *. f_equal.
  apply set_eq. intros x. rewrite elem_of_difference, elem_of_singleton.
  split; [| tauto]. intros Hx. split; [done |]. by intros ->.
Qed.

Lemma deleteDggState_alt (k : string) (ur : UnRustleLogs) :
  deleteDggState k ur = set_dggStates (fun m => delete k m) ur.
Proof.
  unfold deleteDggState, Go.index.
  destruct (dggStates ur !! k) as [p|] eqn:Hk; [done |].
  destruct ur as [cfg d dgg tw]. unfold set_dggStates. simpl in *. f_equal.
  symmetry. by apply delete_id.
Qed.

Lemma hasDggState_lookup (ur : UnRustleLogs) (k : string) :
  hasDggState ur k =
    match dggStates ur !! k with
    | Some (Some st) => Go.Ok (verifier st, true)
    | Some None | None => Go.Panic Go.nil_dereference
    end.
Proof.
  unfold hasDggState, Go.index. by destruct (dggStates ur !! k) as [[st|]|].
Qed.

(** X1.  Issuing a dgg nonce and looking it up: the nonce just issued is
    found with the verifier just given (an earlier entry under the same
    nonce is overwritten), every other nonce is looked up as before, and
    the twitch store is as before. *)
Theorem addDggState_then_lookup (s v k : string) (rt : Runtime) :
  hasDggState (app (addDggState s v rt)) k
    = (if decide (k = s) then Go.Ok (v, true) else hasDggState (app rt) k)
  ∧ hasTwitchState (app (addDggState s v rt)) k = hasTwitchState (app rt) k.
Proof.
  split; [| done]. rewrite !hasDggState_lookup. simpl.
  destruct (decide (k = s)) as [->|Hne].
  - by rewrite lookup_insert_eq.
  - by rewrite lookup_insert_ne.
Qed.

(** X2.  Issuing a twitch nonce and looking it up: the nonce just issued
    is found, every other nonce is found exactly if it was before, and the
    dgg store is as before. *)
Theorem addTwitchState_then_lookup (s k : string) (rt : Runtime) :
  hasTwitchState (app (addTwitchState s rt)) k
    = (bool_decide (k = s) || hasTwitchState (app rt) k)
  ∧ hasDggState (app (addTwitchState s rt)) k = hasDggState (app rt) k.
Proof.
  split; [| done]. rewrite !hasTwitchState_spec. simpl.
  destruct (decide (k = s)) as [->|Hne].
  - rewrite (bool_decide_eq_true_2 (s = s)) by done. simpl.
    apply bool_decide_eq_true_2, elem_of_union. left. by apply elem_of_singleton.
  - rewrite (bool_decide_eq_false_2 (k = s)) by done. simpl.
    apply bool_decide_ext. rewrite elem_of_union, elem_of_singleton. tauto.
Qed.

(** X3.  Deleting a nonce and looking up: in the twitch store the deleted
    nonce is not found and every other nonce is found exactly if it was
    before; in the dgg store the lookup of the deleted nonce panics and
    every other nonce is looked up as before; a deletion in one store
    leaves the lookups of the other store as they were. *)
Theorem delete_then_lookup (s k : string) (ur : UnRustleLogs) :
  hasTwitchState (deleteTwitchState s ur) k
    = (negb (bool_decide (k = s)) && hasTwitchState ur k)
  ∧ hasDggState (deleteDggState s ur) k
    = (if decide (k = s) then Go.Panic Go.nil_dereference
       else hasDggState ur k)
  ∧ hasDggState (deleteTwitchState s ur) k = hasDggState ur k
  ∧ hasTwitchState (deleteDggState s ur) k = hasTwitchState ur k.
Proof.
  rewrite deleteTwitchState_alt, deleteDggState_alt. split_and!; try done.
  - rewrite !hasTwitchState_spec. simpl.
    destruct (decide (k = s)) as [->|Hne].
    + rewrite (bool_decide_eq_true_2 (s = s)) by done. simpl.
      apply bool_decide_eq_false_2. rewrite elem_of_difference, elem_of_singleton.
      tauto.
    + rewrite (bool_decide_eq_false_2 (k = s)) by done. simpl.
      apply bool_decide_ext. rewrite elem_of_difference, elem_of_singleton. tauto.
  - rewrite !hasDggState_lookup. simpl.
    destruct (decide (k = s)) as [->|Hne].
    + by rewrite lookup_delete_eq.
    + by rewrite lookup_delete_ne.
Qed.

(** X4.  Removals commute: removing two nonces, from the same store or
    from the two stores, gives the same application in either order. *)
Theorem remove_commutes (p1 p2 : provider) (k1 k2 : string) (ur : UnRustleLogs) :
  remove p1 k1 (remove p2 k2 ur) = remove p2 k2 (remove p1 k1 ur).
Proof.
  destruct p1, p2; simpl;
    rewrite ?deleteTwitchState_alt, ?deleteDggState_alt;
    destruct ur as [cfg d dgg tw]; unfold set_twitchStates, set_dggStates;
    simpl; f_equal.
  - apply set_eq. intros x. rewrite !elem_of_difference. tauto.
  - apply delete_delete.
Qed.

(** X5.  Whenever [hasDggState] returns, its flag is [true]: the nonce is
    in the store and the string returned is the verifier stored with it.
    The flag [false] is never returned. *)
Theorem hasDggState_returns_only_found (ur : UnRustleLogs) (k v : string)
    (b : bool) :
  hasDggState ur k = Go.Ok (v, b) ->
  b = true ∧ ∃ st, dggStates ur !! k = Some (Some st) ∧ v = verifier st.
Proof.
  rewrite hasDggState_lookup.
  destruct (dggStates ur !! k) as [[st|]|]; intros H; try discriminate H.
  injection H as <- <-. eauto.
Qed.

Lemma hasDggState_returns_only_found_witness :
  let ur := app (addDggState "n1" "v1" (boot Sample.cfg ∅ 0)) in
  hasDggState ur "n1" = Go.Ok ("v1", true)
  ∧ ∃ st, dggStates ur !! "n1" = Some (Some st) ∧ "v1" = verifier st.
Proof.
  intros ur. split; [reflexivity |].
  apply (hasDggState_returns_only_found ur "n1" "v1" true). reflexivity.
Defined.

(** ** The process: invariants of the expiry goroutines *)

Lemma pending_later (rt rt' : Runtime) (t : task) (l l' : Z) (more : list goroutine) :
  sleeping rt' = sleeping rt ++ more -> l <= l' ->
  pending rt t l -> pending rt' t l'.
Proof.
  intros Hs Hl (i & g & Hi & Hb & Hw). exists i, g. rewrite Hs.
  split; [by apply lookup_app_l_Some |]. split; [done | lia].
Qed.

Lemma pending_newest (rt rt' : Runtime) (g : goroutine) (l : Z) :
  sleeping rt' = sleeping rt ++ [g] -> wake g <= l ->
  pending rt' (body g) l.
Proof.
  intros Hs Hl. exists (length (sleeping rt)), g. rewrite Hs.
  split; [by apply list_lookup_middle | done].
Qed.

Lemma pending_after_resume (rt rt' : Runtime) (i : nat) (g : goroutine)
    (t : task) (l : Z) :
  sleeping rt !! i = Some g -> body g ≠ t ->
  sleeping rt' = delete i (sleeping rt) ->
  pending rt t l -> pending rt' t l.
Proof.
  intros Hi Hne Hs (j & g' & Hj & Hb & Hw). rewrite <- Hb in Hne.
  assert (j ≠ i) as Hji.
  { intros ->. rewrite Hi in Hj. injection Hj as ->. done. }
  destruct (decide (j < i)%nat) as [Hlt|Hge].
  - exists j, g'. rewrite Hs, list_lookup_delete_lt by done. done.
  - exists (pred j), g'. rewrite Hs, list_lookup_delete_ge by lia.
    replace (S (pred j)) with j by lia. done.
Qed.

Lemma resume_Some (i : nat) (rt rt' : Runtime) :
  resume i rt = Some rt' ->
  ∃ g, sleeping rt !! i = Some g ∧ wake g <= clock rt
       ∧ rt' = {| app := run_task (body g) (app rt); clock := clock rt;
                  sleeping := delete i (sleeping rt) |}.
Proof.
  unfold resume. destruct (sleeping rt !! i) as [g|]; [| done].
  case_bool_decide as Hle; [| done]. intros E. injection E as <-. eauto.
Qed.

Lemma task_is_expiry (t : task) : ∃ p nonce, t = expiry_task p nonce.
Proof.
  destruct t as [s|s];
    [by exists ProviderDgg, s | by exists ProviderTwitch, s].
Qed.

Lemma twitchStates_remove (p : provider) (n s : string) (ur : UnRustleLogs) :
  s ∈ twitchStates (remove p n ur) ->
  s ∈ twitchStates ur ∧ TaskDeleteTwitchState s ≠ expiry_task p n.
Proof.
  destruct p; simpl.
  - rewrite deleteTwitchState_alt. simpl.
    rewrite elem_of_difference, elem_of_singleton. intros [Hs Hne].
    split; [done |]. intros E. injection E as ->. done.
  - rewrite deleteDggState_alt. simpl. done.
Qed.

Lemma dggStates_remove (p : provider) (n s : string) (ur : UnRustleLogs)
    (x : Go.ptr state) :
  dggStates (remove p n ur) !! s = Some x ->
  dggStates ur !! s = Some x ∧ TaskDeleteDggState s ≠ expiry_task p n.
Proof.
  destruct p; simpl.
  - rewrite deleteTwitchState_alt. simpl. done.
  - rewrite deleteDggState_alt. simpl. rewrite lookup_delete.
    case_decide as E; [done |]. intros Hs. split; [done |].
    intros E'. injection E' as ->. done.
Qed.

Lemma step_every_entry_expires (rt : Runtime) (e : event) :
  every_entry_expires rt -> every_entry_expires (step rt e).
Proof.
  intros [Htw Hdgg]. destruct e as [p n v | p n | d | i]; simpl.
  - (* a login *)
    pose proof (issue_schedules p n v rt) as [Hs Hclk].
    split.
    + intros s Hin. rewrite Hclk.
      destruct p; simpl in Hin.
      * apply elem_of_union in Hin as [Hin | Hin].
        -- apply elem_of_singleton in Hin as ->.
           apply (pending_newest rt _ _ _ Hs). simpl. lia.
        -- by apply (pending_later rt _ _ _ _ _ Hs (Z.le_refl _)), Htw.
      * by apply (pending_later rt _ _ _ _ _ Hs (Z.le_refl _)), Htw.
    + intros s x Hx. rewrite Hclk.
      destruct p; simpl in Hx.
      * destruct (Hdgg s x Hx) as (st & -> & Ht & Hp). exists st.
        split_and!; [done | done |].
        by apply (pending_later rt _ _ _ _ _ Hs (Z.le_refl _)).
      * rewrite lookup_insert in Hx. case_decide as E.
        -- subst s. injection Hx as <-. eexists. split_and!; [done | simpl; lia |].
           apply (pending_newest rt _ _ _ Hs). simpl. unfold five_minutes. lia.
        -- destruct (Hdgg s x Hx) as (st & -> & Ht & Hp). exists st.
           split_and!; [done | done |].
           by apply (pending_later rt _ _ _ _ _ Hs (Z.le_refl _)).
  - (* a callback removes a nonce *)
    split.
    + intros s Hin. apply twitchStates_remove in Hin as [Hin _].
      destruct (Htw s Hin) as (j & g & ? & ? & ?). by exists j, g.
    + intros s x Hx. apply dggStates_remove in Hx as [Hx _].
      destruct (Hdgg s x Hx) as (st & -> & Ht & j & g & ? & ? & ?).
      exists st. split_and!; [done | done |]. by exists j, g.
  - (* time passes *)
    split.
    + intros s Hin. destruct (Htw s Hin) as (j & g & ? & ? & ?).
      exists j, g. split_and!; [done | done | simpl; lia].
    + intros s x Hx.
      destruct (Hdgg s x Hx) as (st & -> & Ht & j & g & ? & ? & ?).
      exists st. split_and!; [done | simpl; lia |]. by exists j, g.
  - (* a goroutine is resumed *)
    destruct (resume i rt) as [rt'|] eqn:Hr; simpl; [| by split].
    apply resume_Some in Hr as (g & Hi & Hw & ->).
    destruct (task_is_expiry (body g)) as (p & n & Hb).
    rewrite Hb, run_expiry_task. split; simpl.
    + intros s Hin. apply twitchStates_remove in Hin as [Hin Hne].
      apply (pending_after_resume rt _ i g); [done | | done | by apply Htw].
      by rewrite Hb.
    + intros s x Hx. apply dggStates_remove in Hx as [Hx Hne].
      destruct (Hdgg s x Hx) as (st & -> & Ht & Hp).
      exists st. split_and!; [done | done |].
      apply (pending_after_resume rt _ i g); [done | | done | done].
      by rewrite Hb.
Qed.

Lemma execute_snoc (es : list event) (e : event) (rt : Runtime) :
  execute (es ++ [e]) rt = step (execute es rt) e.
Proof. unfold execute. by rewrite foldl_app. Qed.

Lemma execute_every_entry_expires (cfg : Config) (d : DB) (now : Z)
    (es : list event) :
  every_entry_expires (execute es (boot cfg d now)).
Proof.
  induction es as [|e es IH] using rev_ind.
  - split.
    + intros s Hin. simpl in Hin. by apply not_elem_of_empty in Hin.
    + intros s x Hx. simpl in Hx. by rewrite lookup_empty in Hx.
  - rewrite execute_snoc. by apply step_every_entry_expires.
Qed.

(** X6.  In every state the process reaches from its start, every nonce
    in either store has its expiry goroutine asleep, due within five
    minutes (of now for a twitch entry, of its time stamp for a dgg
    entry); and every dgg entry is a non-nil pointer whose time stamp is
    not in the future. *)
Theorem reachable_entries_expire (cfg : Config) (d : DB) (now : Z)
    (es : list event) :
  every_entry_expires (execute es (boot cfg d now)).
Proof. apply execute_every_entry_expires. Qed.

(** X7.  In every state the process reaches, a dgg nonce that is in the
    store is looked up without a panic: [hasDggState] returns its verifier
    and [true]. *)
Theorem reachable_present_lookup_returns (cfg : Config) (d : DB) (now : Z)
    (es : list event) (k : string) :
  is_Some (dggStates (app (execute es (boot cfg d now))) !! k) ->
  ∃ v, hasDggState (app (execute es (boot cfg d now))) k = Go.Ok (v, true).
Proof.
  intros [x Hx].
  destruct (execute_every_entry_expires cfg d now es) as [_ Hdgg].
  destruct (Hdgg k x Hx) as (st & -> & _).
  exists (verifier st). by apply hasDggState_issued.
Qed.

Lemma reachable_present_lookup_returns_witness :
  let es := [EvIssue ProviderDgg "n1" "v1"; EvElapse 1000;
             EvIssue ProviderTwitch "n2" ""; EvResume 0] in
  is_Some (dggStates (app (execute es (boot Sample.cfg ∅ 0))) !! "n1")
  ∧ ∃ v, hasDggState (app (execute es (boot Sample.cfg ∅ 0))) "n1"
         = Go.Ok (v, true).
Proof.
  intros es.
  assert (is_Some (dggStates (app (execute es (boot Sample.cfg ∅ 0))) !! "n1"))
    as Hsome by (vm_compute; eauto).
  split; [exact Hsome |].
  apply (reachable_present_lookup_returns Sample.cfg ∅ 0 es "n1" Hsome).
Defined.

Lemma step_frame (rt : Runtime) (e : event) :
  config (app (step rt e)) = config (app rt)
  ∧ db (app (step rt e)) = db (app rt)
  ∧ clock rt <= clock (step rt e).
Proof.
  destruct e as [p n v | p n | d | i]; simpl.
  - destruct p; simpl; split_and!; done.
  - destruct p; simpl; [rewrite deleteTwitchState_alt | rewrite deleteDggState_alt];
      simpl; split_and!; done.
  - split_and!; [done | done | lia].
  - destruct (resume i rt) as [rt'|] eqn:Hr; simpl; [| split_and!; done].
    apply resume_Some in Hr as (g & _ & _ & ->). simpl.
    destruct (body g); simpl;
      [rewrite deleteDggState_alt | rewrite deleteTwitchState_alt];
      simpl; split_and!; done.
Qed.

Lemma execute_frame (es : list event) (rt : Runtime) :
  config (app (execute es rt)) = config (app rt)
  ∧ db (app (execute es rt)) = db (app rt)
  ∧ clock rt <= clock (execute es rt).
Proof.
  induction es as [|e es IH] using rev_ind; [by split_and! |].
  rewrite execute_snoc. destruct IH as (Hc & Hd & Hk).
  destruct (step_frame (execute es rt) e) as (Hc' & Hd' & Hk').
  split_and!; [congruence | congruence | lia].
Qed.

(** X8.  Whatever happens to the state stores (issuances, removals,
    expiries, time passing), the configuration and the preference table of
    the application stay as they were at the start, and the clock never
    goes back. *)
Theorem state_store_events_frame (es : list event) (rt : Runtime) :
  config (app (execute es rt)) = config (app rt)
  ∧ db (app (execute es rt)) = db (app rt)
  ∧ clock rt <= clock (execute es rt).
Proof. apply execute_frame. Qed.

(** X9.  A nonce issued again before its first expiry is removed by the
    goroutine of the first issuance: re-issued [d] nanoseconds after the
    first issuance (0 < d < 5 minutes), the entry is found after the
    re-issuance, and once 5 minutes have passed since the first issuance
    the first goroutine can run and removes the entry, less than five
    minutes after the re-issuance, while the goroutine of the re-issuance
    is still asleep. *)
Theorem reissued_nonce_expires_early (p : provider) (s v1 v2 : string)
    (rt : Runtime) (d : Z) :
  0 < d -> d < five_minutes ->
  let rt1 := issue p s v1 rt in
  let rt2 := issue p s v2 (elapse d rt1) in
  let rt3 := elapse (five_minutes - d) rt2 in
  let i := length (sleeping rt) in
  lookup p s (app rt2) = Go.Ok true
  ∧ ∃ rt4, resume i rt3 = Some rt4
      ∧ absent p s (app rt4)
      ∧ clock rt4 < clock rt2 + five_minutes
      ∧ pending rt4 (expiry_task p s) (clock rt2 + five_minutes)
      ∧ resume i rt4 = None.
Proof.
  intros Hd0 Hd5 rt1 rt2 rt3 i.
  assert (sleeping rt3 = sleeping rt ++
            [{| wake := clock rt + five_minutes; body := expiry_task p s |};
             {| wake := clock rt + d + five_minutes; body := expiry_task p s |}])
    as Hs.
  { subst rt3 rt2 rt1. simpl.
    destruct (issue_schedules p s v2 (elapse d (issue p s v1 rt))) as [-> _].
    simpl. destruct (issue_schedules p s v1 rt) as [-> ->].
    by rewrite <- app_assoc. }
  assert (clock rt3 = clock rt + five_minutes) as Hclk.
  { subst rt3 rt2 rt1. simpl.
    destruct (issue_schedules p s v2 (elapse d (issue p s v1 rt))) as [_ ->].
    simpl. destruct (issue_schedules p s v1 rt) as [_ ->]. lia. }
  assert (clock rt2 = clock rt + d) as Hclk2.
  { subst rt2 rt1.
    destruct (issue_schedules p s v2 (elapse d (issue p s v1 rt))) as [_ ->].
    simpl. by destruct (issue_schedules p s v1 rt) as [_ ->]. }
  split; [apply lookup_issued, issue_issued |].
  clearbody rt3. clearbody rt2. clearbody rt1.
  eexists. split_and!.
  - apply (resume_expiry p s i rt3 (clock rt + five_minutes)); [| lia].
    rewrite Hs. by apply list_lookup_middle.
  - simpl. apply remove_gone.
  - simpl. lia.
  - exists i, {| wake := clock rt + d + five_minutes; body := expiry_task p s |}.
    simpl. rewrite Hs. split_and!; [| done | lia].
    replace i with (length (sleeping rt) + 0)%nat by (subst i; lia).
    rewrite list_lookup_delete_ge by lia.
    replace (S (length (sleeping rt) + 0)) with (length (sleeping rt) + 1)%nat
      by lia.
    rewrite lookup_app_r by lia.
    replace (length (sleeping rt) + 1 - length (sleeping rt))%nat with 1%nat
      by lia.
    done.
  - apply (resume_too_early i _
             {| wake := clock rt + d + five_minutes; body := expiry_task p s |}).
    + simpl. rewrite Hs.
      replace i with (length (sleeping rt) + 0)%nat by (subst i; lia).
      rewrite list_lookup_delete_ge by lia.
      replace (S (length (sleeping rt) + 0)) with (length (sleeping rt) + 1)%nat
        by lia.
      rewrite lookup_app_r by lia.
      replace (length (sleeping rt) + 1 - length (sleeping rt))%nat with 1%nat
        by lia.
      done.
    + simpl. lia.
Qed.

Lemma reissued_nonce_expires_early_witness :
  let rt1 := issue ProviderTwitch "n1" "" (boot Sample.cfg ∅ 0) in
  let rt2 := issue ProviderTwitch "n1" "" (elapse (4 * Go.Minute) rt1) in
  let rt3 := elapse Go.Minute rt2 in
  hasTwitchState (app rt2) "n1" = true
  ∧ ∃ rt4, resume 0 rt3 = Some rt4
      ∧ hasTwitchState (app rt4) "n1" = false
      ∧ clock rt4 - clock rt2 = Go.Minute.
Proof.
  intros rt1 rt2 rt3.
  destruct (reissued_nonce_expires_early ProviderTwitch "n1" "" ""
              (boot Sample.cfg ∅ 0) (4 * Go.Minute))
    as (H1 & rt4 & H2 & H3 & _).
  - reflexivity.
  - reflexivity.
  - split; [reflexivity |]. exists rt4. split; [exact H2 |].
    split; [by apply hasTwitchState_absent |].
    change (resume 0 rt3 = Some rt4) in H2.
    vm_compute in H2. injection H2 as <-. reflexivity.
Defined.

Lemma issue_keeps_issued (p p' : provider) (s n v : string) (rt : Runtime) :
  issued p s (app rt) -> issued p s (app (issue p' n v rt)).
Proof.
  destruct p, p'; simpl; try done.
  - intros H. apply elem_of_union. by right.
  - intros [st H]. destruct (decide (n = s)) as [->|Hne].
    + eexists. apply lookup_insert_eq.
    + exists st. by rewrite lookup_insert_ne.
Qed.

Lemma remove_keeps_issued (p p' : provider) (s n : string) (ur : UnRustleLogs) :
  expiry_task p' n ≠ expiry_task p s ->
  issued p s ur -> issued p s (remove p' n ur).
Proof.
  intros Hne. destruct p, p'; simpl;
    rewrite ?deleteTwitchState_alt, ?deleteDggState_alt; simpl; try done.
  - intros H. apply elem_of_difference. split; [done |].
    rewrite elem_of_singleton. intros ->. done.
  - intros [st H]. exists st. rewrite lookup_delete_ne; [done |].
    intros ->. done.
Qed.

Lemma lookup_delete_inv {A} (l : list A) (i j : nat) (x : A) :
  delete i l !! j = Some x -> ∃ j', l !! j' = Some x.
Proof.
  destruct (decide (j < i)%nat) as [Hlt|Hge].
  - rewrite list_lookup_delete_lt by done. eauto.
  - rewrite list_lookup_delete_ge by lia. eauto.
Qed.

Lemma step_survives (p : provider) (s : string) (t0 : Z) (rt : Runtime)
    (e : event) :
  ¬ removes p s e -> t0 <= clock rt ->
  survives p s t0 rt -> survives p s t0 (step rt e).
Proof.
  intros Hnr Ht0 [Hg Hiss]. destruct e as [p' n v | p' n | d | i]; simpl.
  - pose proof (issue_schedules p' n v rt) as [Hs Hclk]. split.
    + intros i g. rewrite Hs. intros Hi Hb.
      apply lookup_app_Some in Hi as [Hi | [_ Hi]]; [by eapply Hg |].
      apply list_lookup_singleton_Some in Hi as [_ <-]. simpl. lia.
    + rewrite Hclk. intros Hlt. by apply issue_keeps_issued, Hiss.
  - split; [done |]. simpl. intros Hlt. apply remove_keeps_issued; [| by apply Hiss].
    intros E. apply Hnr. unfold removes.
    destruct p, p'; simpl in E; try discriminate E; by injection E as ->.
  - split; [done |]. simpl. intros Hlt. apply Hiss. lia.
  - destruct (resume i rt) as [rt'|] eqn:Hr; simpl; [| by split].
    apply resume_Some in Hr as (g & Hi & Hw & ->). split; simpl.
    + intros j g' Hj Hb. apply lookup_delete_inv in Hj as [j' Hj].
      by eapply Hg.
    + intros Hlt. destruct (task_is_expiry (body g)) as (p' & n & Hb).
      rewrite Hb, run_expiry_task.
      apply remove_keeps_issued; [| by apply Hiss].
      intros E. rewrite <- Hb in E. specialize (Hg i g Hi E). lia.
Qed.

Lemma execute_survives (p : provider) (s : string) (t0 : Z) (rt : Runtime)
    (es : list event) :
  Forall (fun e => ¬ removes p s e) es -> t0 <= clock rt ->
  survives p s t0 rt -> survives p s t0 (execute es rt).
Proof.
  intros Hes Ht0 Hsv.
  induction es as [|e es IH] using rev_ind; [done |].
  apply Forall_app in Hes as [Hes He]. apply Forall_cons in He as [He _].
  rewrite execute_snoc. apply step_survives; [exact He | | by apply IH].
  destruct (execute_frame es rt) as (_ & _ & Hk). lia.
Qed.

(** X10.  A nonce issued when no older goroutine for it is asleep stays
    in its store for the whole five minutes, whatever else happens in the
    meantime (other logins, removals of other nonces, expiries, a
    re-issuance of the same nonce), unless a callback removes it: as long
    as the clock has not reached five minutes after the issuance, the
    lookup finds it. *)
Theorem fresh_nonce_survives (p : provider) (s v : string) (rt : Runtime)
    (es : list event) :
  no_older_expiry p s rt ->
  Forall (fun e => ¬ removes p s e) es ->
  clock (execute es (issue p s v rt)) < clock rt + five_minutes ->
  issued p s (app (execute es (issue p s v rt)))
  ∧ lookup p s (app (execute es (issue p s v rt))) = Go.Ok true.
Proof.
  intros Hold Hes Hlt.
  pose proof (issue_schedules p s v rt) as [Hs Hclk].
  assert (survives p s (clock rt) (execute es (issue p s v rt))) as [_ Hiss].
  { apply execute_survives; [done | lia |]. split.
    - intros i g. rewrite Hs. intros Hi Hb.
      apply lookup_app_Some in Hi as [Hi | [_ Hi]]; [by destruct (Hold i g Hi) |].
      apply list_lookup_singleton_Some in Hi as [_ <-]. simpl. lia.
    - intros _. apply issue_issued. }
  split; [by apply Hiss | by apply lookup_issued, Hiss].
Qed.

Lemma fresh_nonce_survives_witness :
  let es := [EvElapse 1000; EvIssue ProviderTwitch "n2" ""; EvResume 0;
             EvRemove ProviderTwitch "n2"; EvIssue ProviderDgg "n1" "v2"] in
  let rt := execute es (issue ProviderDgg "n1" "v1" (boot Sample.cfg ∅ 0)) in
  clock rt < five_minutes ∧ hasDggState (app rt) "n1" = Go.Ok ("v2", true).
Proof.
  intros es rt.
  destruct (fresh_nonce_survives ProviderDgg "n1" "v1" (boot Sample.cfg ∅ 0) es)
    as [_ H].
  - intros i g Hi. destruct i; discriminate Hi.
  - repeat constructor; discriminate.
  - reflexivity.
  - split; reflexivity.
Defined.

(** ** Further properties of the handlers *)

Lemma jwtMiddleware_cases (parse : jwt.Parser) (fn : gin.HandlerFunc)
    (cookie : string) (c : gin.Context) (ur : UnRustleLogs) :
  jwtMiddleware parse fn cookie c ur =
    match gin.cookies c !! cookie with
    | None =>
        Go.Ok (add_effects [LogError "http: named cookie not present";
                            WriteJSON 401 [("message", "Unauthorized")]] c, ur)
    | Some v =>
        match parse v (Server_JWTSecret (config ur)) with
        | (_, Some e) =>
            Go.Ok (add_effects [LogError e; ClearCookie v;
                                WriteJSON 401 [("message", "error")]] c, ur)
        | (_, None) =>
            match spec_session parse ur c cookie with
            | Some cl => fn (gin.SetKey "user" (AnyClaims cl) c) ur
            | None =>
                Go.Ok (add_effects
                         [WriteRedirect 307
                            (if bool_decide (v = Twitch_Cookie (config ur))
                             then "/twitch/logout"
                             else if bool_decide (v = Destinygg_Cookie (config ur))
                                  then "/dgg/logout" else "/")] c, ur)
            end
        end
    end.
Proof.
  unfold jwtMiddleware, spec_session, gin.Cookie.
  destruct (gin.cookies c !! cookie) as [v|]; simpl.
  - destruct (parse v _) as [tok [e|]]; simpl.
    + unfold gin.JSON, deleteCookie, logrus.Error, gin.emit, add_effects. simpl.
      by rewrite <- !app_assoc.
    + destruct (jwt.Claims tok) as [|cl|]; simpl;
        [| destruct (jwt.Valid tok); simpl; [done |] |];
        repeat case_bool_decide; done.
  - unfold gin.JSON, logrus.Error, gin.emit, add_effects. simpl.
    by rewrite <- !app_assoc.
Qed.

Lemma route_handler_unfold (parse : jwt.Parser) (r : route) (c : gin.Context)
    (ur : UnRustleLogs) :
  route_handler parse r c ur =
    jwtMiddleware parse
      (match r with
       | TwitchDelete | DggDelete => deleteHandler (route_service r)
       | TwitchUndelete | DggUndelete => undeleteHandler (route_service r)
       end) (route_cookie r (config ur)) c ur.
Proof. by destruct r. Qed.

Lemma route_handler_valid (parse : jwt.Parser) (r : route) (c : gin.Context)
    (ur : UnRustleLogs) (cl : jwtClaims) :
  spec_session parse ur c (route_cookie r (config ur)) = Some cl ->
  route_handler parse r c ur
    = Go.Ok (add_effects [LogInfo (route_log r (DisplayName cl));
                          WriteRedirect 302 (route_location r)]
               (gin.SetKey "user" (AnyClaims cl) c),
             route_update r (Name cl) ur).
Proof.
  intros Hs. rewrite route_handler_unfold, jwtMiddleware_cases.
  pose proof Hs as Hs'. unfold spec_session in Hs'.
  destruct (gin.cookies c !! route_cookie r (config ur)) as [v|]; [| done].
  destruct (parse v _) as [tok [e|]]; [done |]. rewrite Hs.
  assert (gin.Get "user" (gin.SetKey "user" (AnyClaims cl) c)
          = (AnyClaims cl, true)) as Hget.
  { unfold gin.Get, gin.SetKey. simpl. by rewrite lookup_insert_eq. }
  destruct r; simpl;
    first [by apply deleteHandler_authenticated
          | by apply undeleteHandler_authenticated].
Qed.

(** X11.  A guarded route looks at the cookie of its own provider only: a
    request that does not carry that cookie is answered 401 with the JSON
    body [{"message": "Unauthorized"}], whatever other cookies it carries;
    the error is logged, no cookie is cleared and the application is left
    as it was. *)
Theorem guarded_route_without_cookie (parse : jwt.Parser) (r : route)
    (c : gin.Context) (ur : UnRustleLogs) :
  gin.cookies c !! route_cookie r (config ur) = None ->
  route_handler parse r c ur
    = Go.Ok (add_effects [LogError "http: named cookie not present";
                          WriteJSON 401 [("message", "Unauthorized")]] c, ur).
Proof.
  intros H. by rewrite route_handler_unfold, jwtMiddleware_cases, H.
Qed.

Lemma guarded_route_without_cookie_witness :
  let c := Sample.request [("jwt_twitch", "bob.signed")] [] in
  let ur := NewUnRustleLogs Sample.cfg ∅ in
  route_handler Sample.parse DggDelete c ur
    = Go.Ok (add_effects [LogError "http: named cookie not present";
                          WriteJSON 401 [("message", "Unauthorized")]] c, ur).
Proof.
  intros c ur. apply (guarded_route_without_cookie Sample.parse DggDelete c ur).
  reflexivity.
Defined.



(** X13.  A guarded route that receives a valid session logs the request
    under the claims' display name, updates the preference row whose key
    is the claims' name and the service tag of the route, and redirects
    to ["/?delete=true"] or ["/?delete=false"].  The [Service] field of
    the claims is not consulted: a session accepted under a provider's
    cookie name is recorded under that provider's tag. *)
Theorem guarded_route_valid_session (parse : jwt.Parser) (r : route)
    (c : gin.Context) (ur : UnRustleLogs) (cl : jwtClaims) :
  spec_session parse ur c (route_cookie r (config ur)) = Some cl ->
  route_handler parse r c ur
    = Go.Ok (add_effects [LogInfo (route_log r (DisplayName cl));
                          WriteRedirect 302 (route_location r)]
               (gin.SetKey "user" (AnyClaims cl) c),
             route_update r (Name cl) ur).
Proof. apply route_handler_valid. Qed.

Lemma guarded_route_valid_session_witness :
  let c := Sample.request [("jwt_dgg", "bob.signed")] [] in
  let ur := NewUnRustleLogs Sample.cfg ∅ in
  Service Sample.bob = TWITCHSERVICE
  ∧ route_handler Sample.parse DggDelete c ur
    = Go.Ok (add_effects [LogInfo "Bob requested log deletion";
                          WriteRedirect 302 "/?delete=true"]
               (gin.SetKey "user" (AnyClaims Sample.bob) c),
             AddUser "bob" DESTINYGGSERVICE ur).
Proof.
  intros c ur. split; [reflexivity |].
  apply (guarded_route_valid_session Sample.parse DggDelete c ur Sample.bob).
  reflexivity.
Defined.

(** X14.  Every request to a guarded route is answered, without a panic,
    by exactly one response (JSON or redirect) written last; the request's
    cookies and query are not touched, and of the application only the
    preference table can change: the configuration and both state stores
    stay as they were. *)
Theorem guarded_route_answers_once (parse : jwt.Parser) (r : route)
    (c : gin.Context) (ur : UnRustleLogs) :
  ∃ c' ur' quiet response,
    route_handler parse r c ur = Go.Ok (c', ur')
    ∧ gin.effects c' = gin.effects c ++ quiet ++ [response]
    ∧ Forall (fun e => is_response e = false) quiet
    ∧ is_response response = true
    ∧ gin.cookies c' = gin.cookies c ∧ gin.query c' = gin.query c
    ∧ config ur' = config ur
    ∧ dggStates ur' = dggStates ur ∧ twitchStates ur' = twitchStates ur.
Proof.
  destruct (spec_session parse ur c (route_cookie r (config ur))) as [cl|] eqn:Hs.
  - rewrite (route_handler_valid _ _ _ _ _ Hs).
    eexists _, _, [_], _. split; [reflexivity |].
    split_and!; try reflexivity; try (by repeat constructor); by destruct r.
  - rewrite route_handler_unfold, jwtMiddleware_cases, Hs.
    destruct (gin.cookies c !! route_cookie r (config ur)) as [v|].
    + destruct (parse v _) as [tok [e|]].
      * eexists _, _, [_; _], _. split; [reflexivity |].
        split_and!; try reflexivity. by repeat constructor.
      * eexists _, _, [], _. split; [reflexivity |].
        split_and!; try reflexivity. constructor.
    + eexists _, _, [_], _. split; [reflexivity |].
      split_and!; try reflexivity. by repeat constructor.
Qed.

Lemma spec_session_config (parse : jwt.Parser) (u1 u2 : UnRustleLogs)
    (c : gin.Context) (name : string) :
  config u1 = config u2 ->
  spec_session parse u1 c name = spec_session parse u2 c name.
Proof. intros H. unfold spec_session. by rewrite H. Qed.

Lemma route_update_config (r : route) (name : string) (ur : UnRustleLogs) :
  config (route_update r name ur) = config ur.
Proof. by destruct r. Qed.

Lemma UserInDatabase_AddUser (n s n' s' : string) (ur : UnRustleLogs) :
  UserInDatabase n s (AddUser n' s' ur)
    = (bool_decide ((n, s) = (n', s')) || UserInDatabase n s ur).
Proof.
  unfold UserInDatabase, AddUser. simpl.
  destruct (decide ((n, s) = (n', s'))) as [E|Hne].
  - rewrite (bool_decide_eq_true_2 _ E). simpl. apply bool_decide_eq_true_2.
    apply elem_of_union. left. by apply elem_of_singleton.
  - rewrite (bool_decide_eq_false_2 _ Hne). simpl. apply bool_decide_ext.
    rewrite elem_of_union, elem_of_singleton. tauto.
Qed.

Lemma UserInDatabase_DeleteUser (n s n' s' : string) (ur : UnRustleLogs) :
  UserInDatabase n s (DeleteUser n' s' ur)
    = (negb (bool_decide ((n, s) = (n', s'))) && UserInDatabase n s ur).
Proof.
  unfold UserInDatabase, DeleteUser. simpl.
  destruct (decide ((n, s) = (n', s'))) as [E|Hne].
  - rewrite (bool_decide_eq_true_2 _ E). simpl. apply bool_decide_eq_false_2.
    rewrite elem_of_difference, elem_of_singleton. tauto.
  - rewrite (bool_decide_eq_false_2 _ Hne). simpl. apply bool_decide_ext.
    rewrite elem_of_difference, elem_of_singleton. tauto.
Qed.

Lemma rendered_index (parse : jwt.Parser) (c : gin.Context) (ur : UnRustleLogs) :
  rendered_page (indexHandler parse c ur)
    = Some {| Title := TITLE;
              Twitch :=
                spec_twitch_section ur
                  (spec_session parse ur c (Twitch_Cookie (config ur)));
              Destinygg :=
                spec_dgg_section ur
                  (spec_session parse ur c (Destinygg_Cookie (config ur)));
              DeleteStatus := gin.Query "delete" c |}.
Proof.
  rewrite indexHandler_spec. unfold rendered_page, add_effects. simpl.
  rewrite !app_assoc, last_snoc. done.
Qed.

(** X15.  The status page shows what the guarded routes did.  After a
    provider's delete route has served a valid session, the status page
    for that session shows the provider's section logged in with
    [IsDeleting = true], and the other provider's [IsDeleting] as it was
    before; after the undelete route has served the same session, it shows
    [IsDeleting = false]. *)
Theorem status_page_follows_preference (parse : jwt.Parser) (p : provider)
    (c c2 : gin.Context) (ur : UnRustleLogs) (cl : jwtClaims) :
  spec_session parse ur c (provider_cookie p (config ur)) = Some cl ->
  spec_session parse ur c2 (provider_cookie p (config ur)) = Some cl ->
  ∃ c1 ur1 c3 ur2,
    route_handler parse (delete_route p) c ur = Go.Ok (c1, ur1)
    ∧ section_LoggedIn p <$> rendered_page (indexHandler parse c2 ur1)
      = Some true
    ∧ section_IsDeleting p <$> rendered_page (indexHandler parse c2 ur1)
      = Some true
    ∧ section_IsDeleting (other_provider p)
        <$> rendered_page (indexHandler parse c2 ur1)
      = section_IsDeleting (other_provider p)
          <$> rendered_page (indexHandler parse c2 ur)
    ∧ route_handler parse (undelete_route p) c ur1 = Go.Ok (c3, ur2)
    ∧ section_IsDeleting p <$> rendered_page (indexHandler parse c2 ur2)
      = Some false.
Proof.
  intros Hs Hs2.
  assert (route_cookie (delete_route p) (config ur) = provider_cookie p (config ur))
    as Hck by (by destruct p).
  assert (route_cookie (undelete_route p) (config ur) = provider_cookie p (config ur))
    as Hck' by (by destruct p).
  set (ur1 := route_update (delete_route p) (Name cl) ur).
  set (ur2 := route_update (undelete_route p) (Name cl) ur1).
  assert (config ur1 = config ur) as Hc1 by apply route_update_config.
  assert (config ur2 = config ur) as Hc2.
  { unfold ur2. by rewrite route_update_config. }
  assert (∀ n, spec_session parse ur1 c2 n = spec_session parse ur c2 n) as Hs1.
  { intros n. by apply spec_session_config. }
  assert (∀ n, spec_session parse ur2 c2 n = spec_session parse ur c2 n) as Hs2'.
  { intros n. by apply spec_session_config. }
  assert (UserInDatabase (Name cl) (route_service (delete_route p)) ur1 = true)
    as Hin1.
  { unfold ur1. destruct p; cbn [route_update delete_route route_service];
      rewrite UserInDatabase_AddUser; by rewrite bool_decide_eq_true_2. }
  assert (UserInDatabase (Name cl) (route_service (delete_route p)) ur2 = false)
    as Hin2.
  { unfold ur2. destruct p;
      cbn [route_update undelete_route delete_route route_service];
      rewrite UserInDatabase_DeleteUser; by rewrite bool_decide_eq_true_2. }
  assert (∀ n, UserInDatabase n (route_service (delete_route (other_provider p))) ur1
               = UserInDatabase n (route_service (delete_route (other_provider p))) ur)
    as Hother.
  { intros n. unfold ur1. destruct p;
      cbn [route_update delete_route route_service other_provider];
      rewrite UserInDatabase_AddUser;
      by rewrite bool_decide_eq_false_2 by (intros E; discriminate E). }
  assert (ur1 = route_update (delete_route p) (Name cl) ur) as Hur1 by done.
  assert (ur2 = route_update (undelete_route p) (Name cl) ur1) as Hur2 by done.
  clearbody ur2. clearbody ur1.
  eexists _, ur1, _, ur2. split_and!.
  - rewrite Hur1. apply route_handler_valid. by rewrite Hck.
  - rewrite rendered_index, Hc1, !Hs1.
    destruct p; simpl in *; by rewrite Hs2.
  - rewrite rendered_index, Hc1, !Hs1.
    destruct p; simpl in *; rewrite Hs2; simpl; by rewrite Hin1.
  - rewrite !rendered_index, Hc1, !Hs1.
    destruct p; simpl in *;
      match goal with
      | |- context [spec_session ?a ?b ?d ?e] =>
          destruct (spec_session a b d e) as [cl'|]
      end; simpl; try done; by rewrite Hother.
  - rewrite Hur2. apply route_handler_valid.
    by rewrite Hc1, Hck', (spec_session_config parse ur1 ur).
  - rewrite rendered_index, Hc2, !Hs2'.
    destruct p; simpl in *; rewrite Hs2; simpl; by rewrite Hin2.
Qed.

Lemma status_page_follows_preference_witness :
  let c := Sample.request [("jwt_twitch", "bob.signed")] [] in
  let ur := NewUnRustleLogs Sample.cfg ∅ in
  ∃ c1 ur1,
    route_handler Sample.parse TwitchDelete c ur = Go.Ok (c1, ur1)
    ∧ section_IsDeleting ProviderTwitch
        <$> rendered_page (indexHandler Sample.parse c ur1) = Some true.
Proof.
  intros c ur.
  destruct (status_page_follows_preference Sample.parse ProviderTwitch c c ur
              Sample.bob) as (c1 & ur1 & _ & _ & H1 & _ & H2 & _).
  - reflexivity.
  - reflexivity.
  - exists c1, ur1. split; [exact H1 | exact H2].
Defined.

(** X16.  The status page on a cookie that the library rejects: the page
    is still rendered, with that provider's section logged out; the error
    is logged and a cookie is cleared whose name is the rejected cookie's
    value.  Every cookie the handler clears is named by the value of one
    of the request's two provider cookies. *)
Theorem status_page_rejected_cookie (parse : jwt.Parser) (p : provider)
    (c : gin.Context) (ur : UnRustleLogs) (v : string) (tok : jwt.Token)
    (e : string) :
  gin.cookies c !! provider_cookie p (config ur) = Some v ->
  parse v (Server_JWTSecret (config ur)) = (tok, Some e) ->
  ∃ quiet page,
    indexHandler parse c ur
      = Go.Ok (add_effects (quiet ++ [WriteHTML 200 "index.tmpl" page]) c, ur)
    ∧ LogError e ∈ quiet ∧ ClearCookie v ∈ quiet
    ∧ section_LoggedIn p page = false
    ∧ ∀ name, ClearCookie name ∈ quiet ->
        gin.cookies c !! Twitch_Cookie (config ur) = Some name
        ∨ gin.cookies c !! Destinygg_Cookie (config ur) = Some name.
Proof.
  intros Hc Hp. eexists (_ ++ _), _.
  rewrite indexHandler_spec, <- app_assoc. split; [reflexivity |].
  assert (spec_getUser_effects parse ur c (provider_cookie p (config ur))
          = [LogError e; ClearCookie v]) as He.
  { unfold spec_getUser_effects. by rewrite Hc, Hp. }
  assert (spec_session parse ur c (provider_cookie p (config ur)) = None) as Hs.
  { unfold spec_session. by rewrite Hc, Hp. }
  assert (∀ n name, ClearCookie name ∈ spec_getUser_effects parse ur c n ->
                    gin.cookies c !! n = Some name) as Hclr.
  { intros n name. unfold spec_getUser_effects.
    destruct (gin.cookies c !! n) as [w|]; [| by intros ?%elem_of_nil].
    destruct (parse w _) as [t [err|]]; [| by intros ?%elem_of_nil].
    intros Hin. apply list_elem_of_In in Hin. simpl in Hin.
    destruct Hin as [E | [E | []]]; [discriminate E | by injection E as ->]. }
  split_and!.
  - apply elem_of_app. destruct p; simpl in He; rewrite He; [left | right];
      apply list_elem_of_In; simpl; tauto.
  - apply elem_of_app. destruct p; simpl in He; rewrite He; [left | right];
      apply list_elem_of_In; simpl; tauto.
  - destruct p; simpl in *; by rewrite Hs.
  - intros name Hin. apply elem_of_app in Hin as [Hin | Hin];
      [left | right]; by apply Hclr.
Qed.

Lemma status_page_rejected_cookie_witness :
  let c := Sample.request [("jwt_twitch", "bob.expired")] [] in
  let ur := NewUnRustleLogs Sample.cfg ∅ in
  ∃ quiet page,
    indexHandler Sample.parse c ur
      = Go.Ok (add_effects (quiet ++ [WriteHTML 200 "index.tmpl" page]) c, ur)
    ∧ ClearCookie "bob.expired" ∈ quiet
    ∧ section_LoggedIn ProviderTwitch page = false.
Proof.
  intros c ur.
  destruct (status_page_rejected_cookie Sample.parse ProviderTwitch c ur
              "bob.expired" (jwt.mkToken (AnyClaims Sample.bob) false)
              "token is expired by 1h0m0s")
    as (quiet & page & H1 & _ & H2 & H3 & _).
  - reflexivity.
  - reflexivity.
  - exists quiet, page. split_and!; [exact H1 | exact H2 | exact H3].
Defined.
